(** * FeaturePreparer: column expansion followed by standardisation

    A shallow embedding of the [FeaturePreparer] class of
    [src/__init__.py] and the properties of its expansion policy, of the
    state it learns in [fit] and of the naming helper.

    Arrays are modelled column-wise: every operation of the class works
    on whole columns (boolean-mask selection, elementwise maps,
    concatenation along axis 1).  The element type and the elementwise
    numeric functions of numpy are an interface ([Numeric]); the
    scaler object of scikit-learn is an interface as well ([Scaler]).
    The last part of the file instantiates both over the real numbers. *)

From Stdlib Require Import String DecimalString.
From Stdlib Require Import Reals Lra.
From Stdlib Require Import ZArith Bool Arith Lia List.
Import ListNotations.

Set Implicit Arguments.

(** ** Exceptions and results *)

(** The Python exception classes the modelled code can raise. *)
Inductive exn : Type :=
| IndexError
| ValueError
| TypeError
| NotFittedError.

Inductive result (A : Type) : Type :=
| Ok (a : A)
| Raise (e : exn).

Arguments Ok {A} a.
Arguments Raise {A} e.

Definition rbind {A B : Type} (r : result A) (k : A -> result B) : result B :=
  match r with
  | Ok a => k a
  | Raise e => Raise e
  end.

Definition rmap {A B : Type} (f : A -> B) (r : result A) : result B :=
  rbind r (fun a => Ok (f a)).

Fixpoint rmapM {A B : Type} (f : A -> result B) (l : list A) : result (list B) :=
  match l with
  | [] => Ok []
  | a :: l' => rbind (f a) (fun b => rbind (rmapM f l') (fun bs => Ok (b :: bs)))
  end.

(** ** The powers configuration *)

(** An element of [self.powers]: a Python [int] or a Python [str]
    (["perm"], ["log"], ["exp"] are the strings the code looks for). *)
Inductive power : Type :=
| PInt (z : Z)
| PStr (s : string).

(** Python [==] on the two kinds of element. *)
Definition power_eqb (p q : power) : bool :=
  match p, q with
  | PInt a, PInt b => Z.eqb a b
  | PStr a, PStr b => String.eqb a b
  | _, _ => false
  end.

(** [p in self.powers]. *)
Definition py_in (p : power) (l : list power) : bool :=
  existsb (power_eqb p) l.

(** [str(p)]. *)
Definition py_str (p : power) : string :=
  match p with
  | PInt z => NilZero.string_of_int (Z.to_int z)
  | PStr s => s
  end.

(** ** Boolean-mask selection *)

(** The elements of [l] at the positions where [mk] holds. *)
Fixpoint compress {A : Type} (mk : list bool) (l : list A) : list A :=
  match mk, l with
  | b :: mk', a :: l' => if b then a :: compress mk' l' else compress mk' l'
  | _, _ => []
  end.

(** [a[mask]] on a 1-d array.  [np.array([])] built from an empty list
    of booleans has dtype float64 and is refused as an index; a boolean
    mask must have the length of the indexed axis. *)
Definition getitem_mask {A : Type} (l : list A) (mk : list bool) : result (list A) :=
  match mk with
  | [] => Raise IndexError
  | _ :: _ =>
      if length mk =? length l then Ok (compress mk l) else Raise IndexError
  end.

(** ** The numeric interface *)

(** The float64 elements of an array and numpy's elementwise functions
    on them.  None of them raises: numpy reports a division by zero or a
    logarithm outside its domain by a warning and a non-finite value. *)
Class Numeric (F : Type) : Type := {
  F_eq_dec : forall a b : F, {a = b} + {a <> b};
  fone : F;
  fadd : F -> F -> F;
  fmul : F -> F -> F;
  fdiv : F -> F -> F;
  fpow : F -> Z -> F;
  flog : F -> F;
  fexp : F -> F;
  (** [col.std()] of one column *)
  np_std : list F -> F
}.

Section Arrays.

Context {F : Type} {num : Numeric F}.

(** A 2-d array of shape [(nrows, length cols)], stored by columns. *)
Record matrix : Type := mkMatrix {
  nrows : nat;
  cols : list (list F)
}.

Definition ncols (x : matrix) : nat := length (cols x).

Definition wf_matrix (x : matrix) : Prop :=
  Forall (fun c => length c = nrows x) (cols x).

(** The arrays the code builds: 2-d ones, and the 3-d ones of shape
    [(n, k, m)] that [x[:, None]] starts ([None] is [np.newaxis]); a 3-d
    array is the list of its [k] planes along axis 1, each [n] by [m]. *)
Inductive ndarray : Type :=
| A2 (m : matrix)
| A3 (planes : list matrix).

Definition mat_map (f : F -> F) (x : matrix) : matrix :=
  mkMatrix (nrows x) (map (map f) (cols x)).

Definition nd_map (f : F -> F) (a : ndarray) : ndarray :=
  match a with
  | A2 m => A2 (mat_map f m)
  | A3 ps => A3 (map (mat_map f) ps)
  end.

(** [len(np.unique(col))]: the number of distinct values of a column. *)
Definition np_unique_len (col : list F) : nat :=
  length (nodup F_eq_dec col).

(** [x[:, mask]] for the mask field of the object. *)
Definition getitem_cols (x : matrix) (mask : option (list bool)) : result ndarray :=
  match mask with
  | None => Ok (A3 [x])
  | Some mk => rmap (fun cs => A2 (mkMatrix (nrows x) cs)) (getitem_mask (cols x) mk)
  end.

(** [a / v] for a 2-d array [a] and a 1-d array [v], with numpy's
    broadcasting of the last axis. *)
Definition mat_div_row (x : matrix) (sd : list F) : result matrix :=
  match sd, cols x with
  | [s], cs => Ok (mkMatrix (nrows x) (map (map (fun v => fdiv v s)) cs))
  | ss, [c] => Ok (mkMatrix (nrows x) (map (fun s => map (fun v => fdiv v s) c) ss))
  | ss, cs =>
      if length cs =? length ss
      then Ok (mkMatrix (nrows x)
                 (map (fun cs => map (fun v => fdiv v (snd cs)) (fst cs)) (combine cs ss)))
      else Raise ValueError
  end.

Definition nd_div (a : ndarray) (sd : list F) : result ndarray :=
  match a with
  | A2 m => rmap A2 (mat_div_row m sd)
  | A3 ps => rmap A3 (rmapM (fun p => mat_div_row p sd) ps)
  end.

(** [x[:, i:i+1]]. *)
Definition slice_col (x : matrix) (i : nat) : matrix :=
  mkMatrix (nrows x) (firstn 1 (skipn i (cols x))).

(** The elementwise product of two columns. *)
Definition col_mul (c d : list F) : list F :=
  map (fun uv => fmul (fst uv) (snd uv)) (combine c d).

(** [a * b] for two arrays of the same shape. *)
Definition mat_mul (a b : matrix) : matrix :=
  mkMatrix (nrows a)
    (map (fun cd => col_mul (fst cd) (snd cd)) (combine (cols a) (cols b))).

(** [[x[:, i:i+1] * x[:, j:j+1] for i in range(x.shape[1]) for j in range(i + 1)]]. *)
Definition perm_pieces (x : matrix) : list ndarray :=
  flat_map
    (fun i => map (fun j => A2 (mat_mul (slice_col x i) (slice_col x j))) (seq 0 (i + 1)))
    (seq 0 (ncols x)).

(** [np.concatenate(l, axis=1)]: the arrays must have the same number of
    dimensions and agree on every axis but axis 1. *)
Fixpoint concat_A2 (n : nat) (l : list ndarray) : result (list (list F)) :=
  match l with
  | [] => Ok []
  | A2 m :: r =>
      if nrows m =? n
      then rbind (concat_A2 n r) (fun cs => Ok (cols m ++ cs))
      else Raise ValueError
  | A3 _ :: _ => Raise ValueError
  end.

Fixpoint concat_A3 (n m : nat) (l : list ndarray) : result (list matrix) :=
  match l with
  | [] => Ok []
  | A3 ps :: r =>
      if forallb (fun p => (nrows p =? n) && (ncols p =? m)) ps
      then rbind (concat_A3 n m r) (fun qs => Ok (ps ++ qs))
      else Raise ValueError
  | A2 _ :: _ => Raise ValueError
  end.

Definition np_concatenate (l : list ndarray) : result ndarray :=
  match l with
  | [] => Raise ValueError
  | A2 m :: _ => rmap (fun cs => A2 (mkMatrix (nrows m) cs)) (concat_A2 (nrows m) l)
  | A3 [] :: _ => Raise ValueError
  | A3 (p :: _) :: _ => rmap A3 (concat_A3 (nrows p) (ncols p) l)
  end.

End Arrays.

Arguments matrix F : clear implicits.
Arguments ndarray F : clear implicits.

(** ** The scaler interface *)

(** [sklearn.preprocessing.StandardScaler]: its constructor, [fit]
    (which returns the updated scaler and may raise) and [transform]. *)
Class Scaler (F : Type) : Type := {
  scaler_state : Type;
  StandardScaler : scaler_state;
  scaler_fit : scaler_state -> ndarray F -> scaler_state * result unit;
  scaler_transform : scaler_state -> ndarray F -> result (ndarray F)
}.

(** ** The class FeaturePreparer *)

Declare Scope fp_scope.
Delimit Scope fp_scope with fp.

Notation "x <- e ;; k" := (rbind e (fun x => k))
  (at level 61, e at next level, right associativity) : fp_scope.

Section FeaturePreparer.

Context {F : Type} {num : Numeric F} {skl : Scaler F}.

Local Open Scope fp_scope.

(** The fields of an instance. *)
Record FeaturePreparer : Type := mkFeaturePreparer {
  powers : list power;
  scaler : scaler_state;
  orig_std : option (list F);
  non_boolean_features_mask : option (list bool)
}.

(** [__init__]: [powers] may be [None]; [powers or [1]] replaces [None]
    and the empty list by [[1]]. *)
Definition FeaturePreparer_init (powers : option (list power)) : FeaturePreparer :=
  mkFeaturePreparer
    (match powers with
     | None | Some [] => [PInt 1]
     | Some l => l
     end)
    StandardScaler None None.

(** [[p for p in self.powers if type(p) is int and p != 1]]. *)
Definition int_powers (l : list power) : list Z :=
  flat_map (fun p => match p with
                     | PInt z => if Z.eqb z 1 then [] else [z]
                     | PStr _ => []
                     end) l.

(** The last line of [apply_powers]. *)
Definition finish (f_list : list (ndarray F)) : result (ndarray F) :=
  match f_list with
  | [] => Raise IndexError
  | [a] => Ok a
  | _ :: _ :: _ => np_concatenate f_list
  end.

(** The list [f_list] that [apply_powers] builds, piece by piece. *)
Definition apply_powers_list (self : FeaturePreparer) (x : matrix F)
  : result (list (ndarray F)) :=
  let f_list := if py_in (PInt 1) (powers self) then [A2 x] else [] in
  non_boolean_features <- getitem_cols x (non_boolean_features_mask self) ;;
  let f_list :=
    f_list ++ map (fun p => nd_map (fun v => fpow v p) non_boolean_features)
                  (int_powers (powers self)) in
  let f_list :=
    if py_in (PStr "perm") (powers self) then f_list ++ perm_pieces x else f_list in
  let f_list :=
    if py_in (PStr "log") (powers self)
    then f_list ++ [nd_map (fun v => flog (fadd v fone)) non_boolean_features]
    else f_list in
  if py_in (PStr "exp") (powers self)
  then match orig_std self with
       | None => Raise TypeError
       | Some sd =>
           q <- nd_div non_boolean_features sd ;;
           Ok (f_list ++ [nd_map fexp q])
       end
  else Ok f_list.

Definition apply_powers (self : FeaturePreparer) (x : matrix F) : result (ndarray F) :=
  f_list <- apply_powers_list self x ;;
  finish f_list.

(** *** Methods that assign fields: a state and exception monad *)

(** A method body runs on the instance and yields the instance as it
    left it together with a value or the exception raised. *)
Definition M (A : Type) : Type := FeaturePreparer -> FeaturePreparer * result A.

Definition ret {A : Type} (a : A) : M A := fun self => (self, Ok a).

Definition bind {A B : Type} (m : M A) (k : A -> M B) : M B :=
  fun self =>
    match m self with
    | (self', Ok a) => k a self'
    | (self', Raise e) => (self', Raise e)
    end.

(** A computation that reads the instance and may raise. *)
Definition call {A : Type} (f : FeaturePreparer -> result A) : M A :=
  fun self => (self, f self).

Definition set_mask (mk : list bool) : M unit :=
  fun self =>
    (mkFeaturePreparer (powers self) (scaler self) (orig_std self) (Some mk), Ok tt).

Definition set_orig_std (sd : list F) : M unit :=
  fun self =>
    (mkFeaturePreparer (powers self) (scaler self) (Some sd)
       (non_boolean_features_mask self), Ok tt).

(** [self.scaler.fit(a)]. *)
Definition scaler_fit_m (a : ndarray F) : M unit :=
  fun self =>
    let (s, r) := scaler_fit (scaler self) a in
    (mkFeaturePreparer (powers self) s (orig_std self)
       (non_boolean_features_mask self), r).

Notation "x <~ e ;; k" := (bind e (fun x => k))
  (at level 61, e at next level, right associativity) : fp_scope.
Notation "e ;;; k" := (bind e (fun _ => k))
  (at level 61, right associativity) : fp_scope.

(** [np.array([len(np.unique(col)) > 2 for col in x.T])]. *)
Definition compute_mask (x : matrix F) : list bool :=
  map (fun col => 2 <? np_unique_len col) (cols x).

(** [__fit].  The mask indexed on the second line is the one the first
    line has just assigned, a boolean array or the empty array, so the
    selection is a 2-d array and its [std(axis=0)] has one entry per
    selected column. *)
Definition __fit (x : matrix F) : M (ndarray F) :=
  set_mask (compute_mask x) ;;;
  non_boolean_features <~ call (fun _ => getitem_mask (cols x) (compute_mask x)) ;;
  set_orig_std (map np_std non_boolean_features) ;;;
  x_new <~ call (fun self => apply_powers self x) ;;
  scaler_fit_m x_new ;;;
  ret x_new.

(** [fit] returns [self]: the instance of the resulting state. *)
Definition fit (x : matrix F) : M unit :=
  __fit x ;;; ret tt.

Definition transform (self : FeaturePreparer) (x : matrix F) : result (ndarray F) :=
  x_new <- apply_powers self x ;;
  scaler_transform (scaler self) x_new.

Definition fit_transform (x : matrix F) : M (ndarray F) :=
  x_new <~ __fit x ;;
  call (fun self => scaler_transform (scaler self) x_new).

(** [[str(p) for p in self.powers if p != 1]]. *)
Definition prefixes (l : list power) : list string :=
  map py_str (filter (fun p => negb (power_eqb p (PInt 1))) l).

(** [expand_columns_names_list], [columns] being a 1-d array of strings.
    On an instance that was never fitted [columns[None]] is a 2-d array
    with one row, and prefixing that row raises; with no prefix the
    names come back as they are. *)
Definition expand_columns_names_list (self : FeaturePreparer) (columns : list string)
  : result (list string) :=
  match non_boolean_features_mask self with
  | None =>
      match prefixes (powers self) with
      | [] => Ok columns
      | _ :: _ => Raise TypeError
      end
  | Some mk =>
      non_boolean_columns <- getitem_mask columns mk ;;
      let additional_columns :=
        flat_map (fun pref => map (fun col => (pref ++ "_" ++ col)%string)
                                  non_boolean_columns)
                 (prefixes (powers self)) in
      Ok (columns ++ additional_columns)
  end.

End FeaturePreparer.

Arguments FeaturePreparer F {skl}.

(** ** Specification-side notions *)

Section Notions.

Context {F : Type} {num : Numeric F} {skl : Scaler F}.

(** Column [i] of a matrix. *)
Definition column (x : matrix F) (i : nat) : list F := nth i (cols x) [].

(** The column indices a mask selects, in increasing order. *)
Definition non_boolean_indices (mk : list bool) : list nat :=
  filter (fun i => nth i mk false) (seq 0 (length mk)).

(** A column has more than two distinct values. *)
Definition more_than_two_distinct (col : list F) : Prop :=
  exists a b c, In a col /\ In b col /\ In c col /\ a <> b /\ a <> c /\ b <> c.

(** The instance holds a boolean mask for the column count of [x] and
    one original standard deviation per selected column: the state a
    completed [fit] on a matrix of that column count leaves. *)
Definition fitted_for (self : FeaturePreparer F) (x : matrix F) : Prop :=
  exists mk sd,
    non_boolean_features_mask self = Some mk /\ orig_std self = Some sd /\
    mk <> [] /\ length mk = ncols x /\ length sd = length (non_boolean_indices mk).

(** The column layout of section 4.1 of the specification, for a mask
    [mk] and original standard deviations [sd]: the original columns,
    the integer powers of the selected columns, the pairwise products,
    the logarithms and the exponentials of the selected columns. *)
Definition identity_columns (P : list power) (x : matrix F) : list (list F) :=
  if py_in (PInt 1) P then cols x else [].

Definition power_columns (P : list power) (mk : list bool) (x : matrix F)
  : list (list F) :=
  flat_map (fun p => map (fun c => map (fun v => fpow v p) (column x c))
                         (non_boolean_indices mk))
           (int_powers P).

Definition pair_columns (x : matrix F) : list (list F) :=
  flat_map (fun i => map (fun j => col_mul (column x i) (column x j)) (seq 0 (i + 1)))
           (seq 0 (ncols x)).

Definition perm_columns (P : list power) (x : matrix F) : list (list F) :=
  if py_in (PStr "perm") P then pair_columns x else [].

Definition log_columns (P : list power) (mk : list bool) (x : matrix F)
  : list (list F) :=
  if py_in (PStr "log") P
  then map (fun c => map (fun v => flog (fadd v fone)) (column x c))
           (non_boolean_indices mk)
  else [].

Definition exp_columns (P : list power) (mk : list bool) (sd : list F) (x : matrix F)
  : list (list F) :=
  if py_in (PStr "exp") P
  then map (fun cs => map (fun v => fexp (fdiv v (snd cs))) (column x (fst cs)))
           (combine (non_boolean_indices mk) sd)
  else [].

Definition expanded_columns (P : list power) (mk : list bool) (sd : list F)
  (x : matrix F) : list (list F) :=
  identity_columns P x ++ power_columns P mk x ++ perm_columns P x ++
  log_columns P mk x ++ exp_columns P mk sd x.

(** The matrices behind the pieces of [f_list] on a fitted instance. *)
Definition fitted_matrices (P : list power) (mk : list bool) (sd : list F)
  (x : matrix F) : list (matrix F) :=
  let nbf := mkMatrix (nrows x) (compress mk (cols x)) in
  (if py_in (PInt 1) P then [x] else []) ++
  map (fun p => mat_map (fun v => fpow v p) nbf) (int_powers P) ++
  (if py_in (PStr "perm") P
   then flat_map (fun i => map (fun j => mat_mul (slice_col x i) (slice_col x j))
                               (seq 0 (i + 1)))
                 (seq 0 (ncols x))
   else []) ++
  (if py_in (PStr "log") P then [mat_map (fun v => flog (fadd v fone)) nbf] else []) ++
  (if py_in (PStr "exp") P
   then [mat_map fexp
           (mkMatrix (nrows x)
              (map (fun cs => map (fun v => fdiv v (snd cs)) (fst cs))
                   (combine (compress mk (cols x)) sd)))]
   else []).

(** The number of pairs [(i, j)] with [j <= i < n]. *)
Definition triangle (n : nat) : nat := n * (n + 1) / 2.

(** The configuration makes [apply_powers] build at least one piece on
    a matrix of [n] columns. *)
Definition produces (P : list power) (n : nat) : bool :=
  py_in (PInt 1) P
  || negb (match int_powers P with [] => true | _ :: _ => false end)
  || (py_in (PStr "perm") P && (0 <? n))
  || py_in (PStr "log") P
  || py_in (PStr "exp") P.

(** The instance was never fitted, or it holds a boolean mask with one
    entry per column of [x]: the column layout of [x] is the one the
    instance was fitted on. *)
Definition layout_compatible (self : FeaturePreparer F) (x : matrix F) : Prop :=
  match non_boolean_features_mask self with
  | None => True
  | Some mk => mk <> [] /\ length mk = ncols x
  end.

(** The instances a program can hold for a constructor argument [P]:
    the fresh one and whatever [fit] and [fit_transform] leave, whether
    they return or raise ([transform], [apply_powers] and
    [expand_columns_names_list] assign no field). *)
Inductive reachable (P : option (list power)) : FeaturePreparer F -> Prop :=
| reach_init : reachable P (FeaturePreparer_init P)
| reach_fit : forall self x,
    reachable P self -> reachable P (fst (fit x self))
| reach_fit_transform : forall self x,
    reachable P self -> reachable P (fst (fit_transform x self)).

(** The output of [expand_columns_names_list] as the specification
    words it: integer powers only. *)
Definition names_integer_powers_only (P : list power) (mk : list bool)
  (columns : list string) : list string :=
  columns ++
  flat_map (fun p => map (fun col => (py_str (PInt p) ++ "_" ++ col)%string)
                         (compress mk columns))
           (int_powers P).

(** The configuration entries other than 1, the ones
    [expand_columns_names_list] turns into prefixes. *)
Definition named_entries (P : list power) : list power :=
  filter (fun p => negb (power_eqb p (PInt 1))) P.

(** The string entries of a configuration, with their multiplicity. *)
Definition string_entries (P : list power) : list string :=
  flat_map (fun p => match p with
                     | PInt _ => []
                     | PStr s => [s]
                     end) P.

(** The rows of [a] followed by the rows of [b], for two matrices of
    the same column count. *)
Definition vstack (a b : matrix F) : matrix F :=
  mkMatrix (nrows a + nrows b)
    (map (fun cd => fst cd ++ snd cd) (combine (cols a) (cols b))).

(** The column that the entry [p] of the configuration derives from
    the [k]-th selected column of [x]: an integer power, the logarithm
    for ["log"], the exponential scaled by the [k]-th original standard
    deviation otherwise. *)
Definition derived_column (x : matrix F) (mk : list bool) (sd : list F)
  (p : power) (k : nat) : list F :=
  let c := nth k (non_boolean_indices mk) 0 in
  match p with
  | PInt z => map (fun v => fpow v z) (column x c)
  | PStr s =>
      if String.eqb s "log"
      then map (fun v => flog (fadd v fone)) (column x c)
      else map (fun v => fexp (fdiv v (nth k sd fone))) (column x c)
  end.

(** The name [expand_columns_names_list] gives to that column. *)
Definition derived_name (columns : list string) (mk : list bool)
  (p : power) (k : nat) : string :=
  (py_str p ++ "_" ++ nth (nth k (non_boolean_indices mk) 0) columns "")%string.

(** A configuration whose entries other than 1 are integer powers
    followed by at most ["log"] and then at most ["exp"]. *)
Definition powers_then_log_exp (P : list power) : Prop :=
  exists ints toks,
    named_entries P = map PInt ints ++ map PStr toks /\
    (toks = [] \/ toks = ["log"%string] \/ toks = ["exp"%string] \/
     toks = ["log"%string; "exp"%string]).

End Notions.

(** ** The model over the real numbers *)

Module RealModel.

Local Open Scope R_scope.

Definition R_sum (l : list R) : R := fold_right Rplus 0 l.

Definition R_mean (l : list R) : R := R_sum l / INR (length l).

(** The population standard deviation, as [ndarray.std] computes it. *)
Definition R_std (l : list R) : R :=
  sqrt (R_mean (map (fun v => Rsqr (v - R_mean l)) l)).

#[export] Instance R_numeric : Numeric R := {|
  F_eq_dec := Req_dec_T;
  fone := 1;
  fadd := Rplus;
  fmul := Rmult;
  fdiv := Rdiv;
  fpow := powerRZ;
  flog := ln;
  fexp := exp;
  np_std := R_std
|}.

(** What a fitted scaler has learned. *)
Record scaler_stats : Type := mkStats {
  mean_ : list R;
  scale_ : list R
}.

(** A learned standard deviation of zero is replaced by one. *)
Definition handle_zeros_in_scale (s : R) : R :=
  if Req_dec_T s 0 then 1 else s.

(** Modelled from the spec: the scaler object is scikit-learn's
    [StandardScaler], which the sources only construct and call.  Its
    [fit] forgets what it had learned and computes the mean and the
    standard deviation of every column of the expanded matrix, a 2-d
    array with at least one row and one column; a zero standard
    deviation is stored as one (section 8 of the specification, and
    what the library does).  Real arithmetic stands for float64. *)
Definition std_scaler_fit (old : option scaler_stats) (a : ndarray R)
  : option scaler_stats * result unit :=
  match a with
  | A2 m =>
      if ((nrows m =? 0) || (ncols m =? 0))%nat
      then (None, Raise ValueError)
      else (Some (mkStats (map R_mean (cols m))
                    (map (fun c => handle_zeros_in_scale (R_std c)) (cols m))),
            Ok tt)
  | A3 _ => (None, Raise ValueError)
  end.

(** Modelled from the spec: [transform] of the scaler computes
    [(x - mean) / std] column by column on a 2-d array of the column
    count seen by [fit]. *)
Definition std_scaler_transform (s : option scaler_stats) (a : ndarray R)
  : result (ndarray R) :=
  match s with
  | None => Raise NotFittedError
  | Some st =>
      match a with
      | A2 m =>
          if ((nrows m =? 0) || negb (ncols m =? length (mean_ st)))%nat
          then Raise ValueError
          else Ok (A2 (mkMatrix (nrows m)
                         (map (fun cms =>
                                 map (fun v => (v - fst (snd cms)) / snd (snd cms))
                                     (fst cms))
                              (combine (cols m) (combine (mean_ st) (scale_ st))))))
      | A3 _ => Raise ValueError
      end
  end.

#[export] Instance R_scaler : Scaler R := {|
  scaler_state := option scaler_stats;
  StandardScaler := None;
  scaler_fit := std_scaler_fit;
  scaler_transform := std_scaler_transform
|}.

(** The matrix of the concrete scenario of the specification: a
    two-valued first column and a continuous second column. *)
Definition X1 : matrix R :=
  mkMatrix 4 [[0; 1; 0; 1]; [1; 2; 3; 4]].

(** Two rows of the same layout, with values at and below [-1] in the
    continuous column. *)
Definition X_low : matrix R :=
  mkMatrix 2 [[0; 1]; [-1; -2]].

(** A matrix of another column count. *)
Definition X_narrow : matrix R :=
  mkMatrix 4 [[1; 2; 3; 4]].

(** A matrix with a constant first column. *)
Definition X_const : matrix R :=
  mkMatrix 3 [[5; 5; 5]; [0; 1; 2]].

Definition names_ab : list string := ["a"%string; "b"%string].

Definition self_default : FeaturePreparer R := FeaturePreparer_init None.

Definition self_square : FeaturePreparer R :=
  FeaturePreparer_init (Some [PInt 1; PInt 2]).

Definition self_log : FeaturePreparer R :=
  FeaturePreparer_init (Some [PInt 1; PStr "log"]).

Definition self_perm : FeaturePreparer R :=
  FeaturePreparer_init (Some [PInt 1; PStr "perm"]).

Definition self_square_only : FeaturePreparer R :=
  FeaturePreparer_init (Some [PInt 2]).

(** A matrix with three rows and no column. *)
Definition X_empty : matrix R := mkMatrix 3 [].

(** Two more rows of the layout of [X1]. *)
Definition X_more : matrix R :=
  mkMatrix 2 [[1; 0]; [5; 6]].

(** Two rows and two columns. *)
Definition X_two_rows : matrix R :=
  mkMatrix 2 [[0; 1]; [3; 7]].

Definition names_abc : list string := ["a"%string; "b"%string; "c"%string].

(** A configuration that holds an unknown string only. *)
Definition self_unknown : FeaturePreparer R :=
  FeaturePreparer_init (Some [PStr "sqrt"]).

Definition self_square_log_exp : FeaturePreparer R :=
  FeaturePreparer_init (Some [PInt 1; PInt 2; PStr "log"; PStr "exp"]).

Definition self_exp_log_square : FeaturePreparer R :=
  FeaturePreparer_init (Some [PStr "exp"; PStr "log"; PInt 2; PInt 1; PStr "log"]).

Definition self_all : FeaturePreparer R :=
  FeaturePreparer_init (Some [PInt 1; PInt 2; PStr "perm"; PStr "log"]).

End RealModel.

(** ** Lists, masks and results *)

Lemma filter_map_comm {A B : Type} (f : B -> bool) (g : A -> B) (l : list A) :
  filter f (map g l) = map g (filter (fun a => f (g a)) l).
Proof.
  induction l as [|a l IH]; simpl; [reflexivity|].
  destruct (f (g a)); simpl; now rewrite IH.
Qed.

Section ListFacts.

Context {A : Type}.

Lemma non_boolean_indices_cons (b : bool) (mk : list bool) :
  non_boolean_indices (b :: mk) =
  (if b then [0] else []) ++ map S (non_boolean_indices mk).
Proof.
  unfold non_boolean_indices. simpl length.
  change (seq 0 (S (length mk))) with (0 :: seq 1 (length mk)).
  rewrite <- seq_shift. cbn [filter nth]. rewrite filter_map_comm.
  destruct b; reflexivity.
Qed.

Lemma compress_indices (d : A) (mk : list bool) (l : list A) :
  length mk = length l ->
  compress mk l = map (fun i => nth i l d) (non_boolean_indices mk).
Proof.
  revert l. induction mk as [|b mk IH]; intros [|a l] Hlen; try discriminate.
  - reflexivity.
  - rewrite non_boolean_indices_cons, map_app, map_map. simpl in Hlen.
    simpl compress. rewrite (IH l) by lia.
    destruct b; reflexivity.
Qed.

Lemma compress_length (mk : list bool) (l : list A) :
  length mk = length l ->
  length (compress mk l) = length (non_boolean_indices mk).
Proof.
  intros Hlen. destruct l as [|d l'].
  - destruct mk; [reflexivity|discriminate].
  - rewrite (compress_indices d) by assumption. apply length_map.
Qed.

Lemma non_boolean_indices_spec (mk : list bool) (c : nat) :
  In c (non_boolean_indices mk) <-> c < length mk /\ nth c mk false = true.
Proof.
  unfold non_boolean_indices. rewrite filter_In, in_seq. intuition lia.
Qed.

Lemma getitem_mask_ok (l : list A) (mk : list bool) :
  mk <> [] -> length mk = length l ->
  getitem_mask l mk = Ok (compress mk l).
Proof.
  intros Hne Hlen. unfold getitem_mask. destruct mk as [|b mk]; [congruence|].
  rewrite Hlen, Nat.eqb_refl. reflexivity.
Qed.

Lemma getitem_mask_inv (l r : list A) (mk : list bool) :
  getitem_mask l mk = Ok r ->
  mk <> [] /\ length mk = length l /\ r = compress mk l.
Proof.
  unfold getitem_mask. destruct mk as [|b mk]; [discriminate|].
  destruct (Nat.eqb_spec (length (b :: mk)) (length l)); [|discriminate].
  intros [= <-]. repeat split; [discriminate|assumption].
Qed.

Lemma getitem_mask_mismatch (l : list A) (mk : list bool) :
  length mk <> length l -> getitem_mask l mk = Raise IndexError.
Proof.
  intros Hlen. unfold getitem_mask. destruct mk; [reflexivity|].
  destruct (Nat.eqb_spec (length (b :: mk)) (length l)); [contradiction|reflexivity].
Qed.

End ListFacts.

Lemma slice_nth {A : Type} (d : A) (l : list A) (i : nat) :
  i < length l -> firstn 1 (skipn i l) = [nth i l d].
Proof.
  revert i. induction l as [|a l IH]; intros i Hi; simpl in Hi; [lia|].
  destruct i as [|i]; simpl.
  - reflexivity.
  - apply IH. lia.
Qed.

Lemma combine_map_fst {A B C : Type} (f : A -> B) (l : list A) (l' : list C) :
  combine (map f l) l' = map (fun p => (f (fst p), snd p)) (combine l l').
Proof.
  revert l'. induction l as [|a l IH]; intros [|c l']; simpl; try reflexivity.
  now rewrite IH.
Qed.

(** ** The layout of [apply_powers] on a fitted instance *)

Section Layout.

Context {F : Type} {num : Numeric F} {skl : Scaler F}.

Lemma mat_eta (m : matrix F) : mkMatrix (nrows m) (cols m) = m.
Proof. destruct m; reflexivity. Qed.

Lemma concat_A2_matrices (n : nat) (ms : list (matrix F)) :
  Forall (fun m => nrows m = n) ms ->
  concat_A2 n (map A2 ms) = Ok (flat_map (@cols F) ms).
Proof.
  induction 1 as [|m ms Hm _ IH]; simpl; [reflexivity|].
  rewrite Hm, Nat.eqb_refl, IH. reflexivity.
Qed.

Lemma finish_matrices (n : nat) (ms : list (matrix F)) :
  ms <> [] ->
  Forall (fun m => nrows m = n) ms ->
  finish (map A2 ms) = Ok (A2 (mkMatrix n (flat_map (@cols F) ms))).
Proof.
  intros Hne Hall. destruct ms as [|m [|m' ms]]; [congruence| |].
  - simpl. rewrite app_nil_r. inversion Hall; subst. now rewrite mat_eta.
  - inversion Hall as [|? ? Hm Hall']; subst.
    change (finish (map A2 (m :: m' :: ms)))
      with (np_concatenate (map A2 (m :: m' :: ms))).
    unfold np_concatenate.
    change (match map A2 (m :: m' :: ms) with
            | [] => Raise ValueError
            | A2 m0 :: _ =>
                rmap (fun cs => A2 (mkMatrix (nrows m0) cs))
                  (concat_A2 (nrows m0) (map A2 (m :: m' :: ms)))
            | A3 [] :: _ => Raise ValueError
            | A3 (p :: _) :: _ =>
                rmap A3 (concat_A3 (nrows p) (ncols p) (map A2 (m :: m' :: ms)))
            end)
      with (rmap (fun cs => A2 (mkMatrix (nrows m) cs))
              (concat_A2 (nrows m) (map A2 (m :: m' :: ms)))).
    rewrite concat_A2_matrices by (constructor; [reflexivity|assumption]).
    reflexivity.
Qed.

Lemma mat_div_row_same (x : matrix F) (sd : list F) :
  length sd = ncols x ->
  mat_div_row x sd =
  Ok (mkMatrix (nrows x)
        (map (fun cs => map (fun v => fdiv v (snd cs)) (fst cs)) (combine (cols x) sd))).
Proof.
  unfold mat_div_row, ncols. intros Hlen.
  destruct sd as [|s [|s' sd]]; destruct (cols x) as [|c [|c' cs]];
    try discriminate; try reflexivity.
  simpl in Hlen. injection Hlen as Hlen.
  cbv beta iota. simpl length. rewrite <- Hlen, Nat.eqb_refl. reflexivity.
Qed.

Lemma perm_pieces_matrices (x : matrix F) :
  perm_pieces x =
  map A2 (flat_map (fun i => map (fun j => mat_mul (slice_col x i) (slice_col x j))
                                 (seq 0 (i + 1)))
                   (seq 0 (ncols x))).
Proof.
  unfold perm_pieces. induction (seq 0 (ncols x)) as [|i l IH]; simpl; [reflexivity|].
  rewrite map_app, map_map, IH. reflexivity.
Qed.

Lemma apply_powers_list_fitted (self : FeaturePreparer F) (x : matrix F)
  (mk : list bool) (sd : list F) :
  non_boolean_features_mask self = Some mk ->
  orig_std self = Some sd ->
  mk <> [] -> length mk = ncols x ->
  length sd = length (non_boolean_indices mk) ->
  apply_powers_list self x = Ok (map A2 (fitted_matrices (powers self) mk sd x)).
Proof.
  intros Hmk Hsd Hne Hlen Hsdlen.
  unfold apply_powers_list, fitted_matrices, getitem_cols.
  rewrite Hmk, Hsd, (getitem_mask_ok (cols x) Hne Hlen).
  cbn [rmap rbind nd_map nd_div].
  rewrite mat_div_row_same
    by (unfold ncols; cbn [cols]; rewrite compress_length by exact Hlen; exact Hsdlen).
  cbn [rmap rbind nd_map cols nrows].
  rewrite perm_pieces_matrices.
  destruct (py_in (PInt 1) (powers self)), (py_in (PStr "perm") (powers self)),
    (py_in (PStr "log") (powers self)), (py_in (PStr "exp") (powers self));
    rewrite ?map_app, ?map_map, <- ?app_assoc; cbn [map app];
    rewrite ?app_nil_r; reflexivity.
Qed.

Lemma fitted_matrices_nrows (P : list power) (mk : list bool) (sd : list F)
  (x : matrix F) :
  Forall (fun m => nrows m = nrows x) (fitted_matrices P mk sd x).
Proof.
  unfold fitted_matrices. repeat (apply Forall_app; split).
  - destruct (py_in (PInt 1) P); repeat constructor.
  - apply Forall_forall. intros m Hm. apply in_map_iff in Hm.
    destruct Hm as (p & <- & _). reflexivity.
  - destruct (py_in (PStr "perm") P); [|constructor].
    apply Forall_forall. intros m Hm. apply in_flat_map in Hm.
    destruct Hm as (i & _ & Hm). apply in_map_iff in Hm.
    destruct Hm as (j & <- & _). reflexivity.
  - destruct (py_in (PStr "log") P); repeat constructor.
  - destruct (py_in (PStr "exp") P); repeat constructor.
Qed.

Lemma flat_map_singletons {A B C : Type} (f : B -> list C) (g : A -> B) (h : A -> C)
  (l : list A) :
  (forall a, In a l -> f (g a) = [h a]) ->
  flat_map f (map g l) = map h l.
Proof.
  induction l as [|a l IH]; intros Hf; simpl; [reflexivity|].
  rewrite Hf by now left. rewrite IH by (intros; apply Hf; now right). reflexivity.
Qed.

Lemma pair_matrices_cols (x : matrix F) :
  flat_map (@cols F)
    (flat_map (fun i => map (fun j => mat_mul (slice_col x i) (slice_col x j))
                            (seq 0 (i + 1)))
              (seq 0 (ncols x))) =
  pair_columns x.
Proof.
  unfold pair_columns.
  assert (Hin : forall i, In i (seq 0 (ncols x)) -> i < ncols x)
    by (intros i Hi; apply in_seq in Hi; lia).
  induction (seq 0 (ncols x)) as [|i l IH]; simpl; [reflexivity|].
  rewrite flat_map_app, IH by (intros; apply Hin; now right).
  f_equal. apply flat_map_singletons. intros j Hj. apply in_seq in Hj.
  assert (Hi : i < ncols x) by (apply Hin; now left).
  unfold mat_mul, slice_col, column; cbn [cols nrows].
  unfold ncols in *.
  rewrite (slice_nth [] (cols x)) by exact Hi.
  rewrite (slice_nth [] (cols x)) by lia.
  reflexivity.
Qed.

Lemma fitted_matrices_cols (P : list power) (mk : list bool) (sd : list F)
  (x : matrix F) :
  length mk = ncols x ->
  flat_map (@cols F) (fitted_matrices P mk sd x) = expanded_columns P mk sd x.
Proof.
  intros Hlen. unfold fitted_matrices, expanded_columns.
  rewrite !flat_map_app. repeat f_equal.
  - unfold identity_columns. destruct (py_in (PInt 1) P); simpl;
      [apply app_nil_r|reflexivity].
  - unfold power_columns. rewrite flat_map_concat_map, map_map, <- flat_map_concat_map.
    apply flat_map_ext. intros p. cbn [mat_map cols].
    rewrite (compress_indices [] mk (cols x)) by exact Hlen.
    rewrite map_map. reflexivity.
  - unfold perm_columns. destruct (py_in (PStr "perm") P); [|reflexivity].
    apply pair_matrices_cols.
  - unfold log_columns. destruct (py_in (PStr "log") P); [|reflexivity].
    cbn [flat_map mat_map cols]. rewrite app_nil_r.
    rewrite (compress_indices [] mk (cols x)) by exact Hlen.
    rewrite map_map. reflexivity.
  - unfold exp_columns. destruct (py_in (PStr "exp") P); [|reflexivity].
    cbn [flat_map mat_map cols]. rewrite app_nil_r.
    rewrite (compress_indices [] mk (cols x)) by exact Hlen.
    rewrite combine_map_fst, !map_map. apply map_ext. intros [c s].
    cbn [fst snd]. rewrite map_map. reflexivity.
Qed.

Lemma fitted_matrices_nil (P : list power) (mk : list bool) (sd : list F)
  (x : matrix F) :
  fitted_matrices P mk sd x = [] <-> produces P (ncols x) = false.
Proof.
  unfold fitted_matrices, produces.
  destruct (py_in (PInt 1) P); [split; discriminate|].
  destruct (int_powers P) as [|p ps]; [|split; discriminate].
  cbn [map app orb negb].
  destruct (py_in (PStr "log") P), (py_in (PStr "exp") P);
    try (split; intros H;
         [apply (f_equal (@length _)) in H; rewrite !length_app in H;
          simpl in H; lia
         |destruct (py_in (PStr "perm") P && (0 <? ncols x)); discriminate]).
  rewrite !app_nil_r, !orb_false_r.
  destruct (py_in (PStr "perm") P); [|split; reflexivity].
  cbn [andb]. destruct (ncols x) as [|n]; [split; reflexivity|].
  split; [|discriminate].
  rewrite <- cons_seq. simpl. discriminate.
Qed.

(** On an instance fitted for the column count of [x], [apply_powers]
    returns the matrix of the specified layout, provided the
    configuration produces a piece; otherwise [f_list[0]] raises. *)
Lemma apply_powers_fitted (self : FeaturePreparer F) (x : matrix F)
  (mk : list bool) (sd : list F) :
  non_boolean_features_mask self = Some mk ->
  orig_std self = Some sd ->
  mk <> [] -> length mk = ncols x ->
  length sd = length (non_boolean_indices mk) ->
  apply_powers self x =
  if produces (powers self) (ncols x)
  then Ok (A2 (mkMatrix (nrows x) (expanded_columns (powers self) mk sd x)))
  else Raise IndexError.
Proof.
  intros Hmk Hsd Hne Hlen Hsdlen. unfold apply_powers.
  rewrite (apply_powers_list_fitted self x Hmk Hsd Hne Hlen Hsdlen).
  cbn [rbind].
  destruct (produces (powers self) (ncols x)) eqn:Hp.
  - rewrite (finish_matrices (n := nrows x)).
    + now rewrite fitted_matrices_cols.
    + intros Hnil. apply fitted_matrices_nil in Hnil. congruence.
    + apply fitted_matrices_nrows.
  - rewrite (proj2 (fitted_matrices_nil (powers self) mk sd x) Hp). reflexivity.
Qed.

End Layout.

(** ** Running [fit] *)

Section Fit.

Context {F : Type} {num : Numeric F} {skl : Scaler F}.

(** [apply_powers] reads the configuration, the mask and the original
    standard deviations, not the scaler. *)
Lemma apply_powers_scaler (P : list power) (s s' : scaler_state)
  (sd : option (list F)) (mk : option (list bool)) (x : matrix F) :
  apply_powers (mkFeaturePreparer P s sd mk) x =
  apply_powers (mkFeaturePreparer P s' sd mk) x.
Proof. reflexivity. Qed.

(** [__fit], step by step. *)
Lemma fit_run (self : FeaturePreparer F) (x : matrix F) :
  __fit x self =
  match getitem_mask (cols x) (compute_mask x) with
  | Raise e =>
      (mkFeaturePreparer (powers self) (scaler self) (orig_std self)
         (Some (compute_mask x)), Raise e)
  | Ok nbf =>
      let mid := mkFeaturePreparer (powers self) (scaler self)
                   (Some (map np_std nbf)) (Some (compute_mask x)) in
      match apply_powers mid x with
      | Raise e => (mid, Raise e)
      | Ok x_new =>
          (mkFeaturePreparer (powers self) (fst (scaler_fit (scaler self) x_new))
             (Some (map np_std nbf)) (Some (compute_mask x)),
           rmap (fun _ => x_new) (snd (scaler_fit (scaler self) x_new)))
      end
  end.
Proof.
  unfold __fit, bind, set_mask, set_orig_std, call, scaler_fit_m, ret.
  cbn [powers scaler orig_std non_boolean_features_mask].
  destruct (getitem_mask (cols x) (compute_mask x)) as [nbf|e]; [|reflexivity].
  cbn [powers scaler orig_std non_boolean_features_mask].
  destruct (apply_powers _ x) as [x_new|e]; [|reflexivity].
  cbn [powers scaler orig_std non_boolean_features_mask].
  destruct (scaler_fit (scaler self) x_new) as [s [[]|e]]; reflexivity.
Qed.

Lemma fit_unfold (self : FeaturePreparer F) (x : matrix F) :
  fit x self = (fst (__fit x self), rmap (fun _ => tt) (snd (__fit x self))).
Proof.
  unfold fit, bind, ret. destruct (__fit x self) as [st [a|e]]; reflexivity.
Qed.

Lemma compute_mask_length (x : matrix F) : length (compute_mask x) = ncols x.
Proof. unfold compute_mask, ncols. apply length_map. Qed.

(** What a completed [fit] leaves. *)
Lemma fit_ok_inv (self st : FeaturePreparer F) (x : matrix F) :
  fit x self = (st, Ok tt) ->
  let mk := compute_mask x in
  let sd := map np_std (compress mk (cols x)) in
  exists x_new,
    mk <> [] /\
    apply_powers (mkFeaturePreparer (powers self) (scaler self) (Some sd) (Some mk)) x
      = Ok x_new /\
    snd (scaler_fit (scaler self) x_new) = Ok tt /\
    st = mkFeaturePreparer (powers self) (fst (scaler_fit (scaler self) x_new))
           (Some sd) (Some mk).
Proof.
  rewrite fit_unfold, fit_run. intros H mk sd.
  destruct (getitem_mask (cols x) (compute_mask x)) as [nbf|e] eqn:Hg;
    [|discriminate].
  apply getitem_mask_inv in Hg. destruct Hg as (Hne & _ & ->).
  cbv zeta in H.
  destruct (apply_powers _ x) as [x_new|e] eqn:Ha; [|discriminate].
  cbn [fst snd] in H. exists x_new.
  destruct (snd (scaler_fit (scaler self) x_new)) as [[]|e] eqn:Hs; [|discriminate].
  injection H as <-. repeat split; assumption.
Qed.

Lemma fit_fitted_for (self st : FeaturePreparer F) (x x' : matrix F) :
  fit x self = (st, Ok tt) -> ncols x' = ncols x ->
  non_boolean_features_mask st = Some (compute_mask x) /\
  orig_std st = Some (map np_std (compress (compute_mask x) (cols x))) /\
  powers st = powers self /\
  compute_mask x <> [] /\
  produces (powers self) (ncols x) = true /\
  fitted_for st x'.
Proof.
  intros H Hn. apply fit_ok_inv in H. cbv zeta in H.
  destruct H as (x_new & Hne & Ha & _ & ->).
  cbn [non_boolean_features_mask orig_std powers].
  assert (Hsd : length (map np_std (compress (compute_mask x) (cols x))) =
                length (non_boolean_indices (compute_mask x))).
  { rewrite length_map. apply compress_length. apply compute_mask_length. }
  repeat split; try assumption.
  - rewrite (apply_powers_fitted
               (mkFeaturePreparer (powers self) (scaler self)
                  (Some (map np_std (compress (compute_mask x) (cols x))))
                  (Some (compute_mask x)))
               x eq_refl eq_refl Hne (compute_mask_length x) Hsd) in Ha.
    cbn [powers] in Ha. destruct (produces (powers self) (ncols x));
      [reflexivity|discriminate].
  - exists (compute_mask x), (map np_std (compress (compute_mask x) (cols x))).
    cbn [non_boolean_features_mask orig_std].
    repeat split; try assumption.
    rewrite Hn. apply compute_mask_length.
Qed.

(** [fit] and [fit_transform] leave the configuration alone. *)
Lemma fit_powers (self : FeaturePreparer F) (x : matrix F) :
  powers (fst (__fit x self)) = powers self.
Proof.
  rewrite fit_run.
  destruct (getitem_mask (cols x) (compute_mask x)); [|reflexivity].
  cbv zeta. destruct (apply_powers _ x); reflexivity.
Qed.

Lemma reachable_powers (P : option (list power)) (self : FeaturePreparer F) :
  reachable P self -> powers self = powers (FeaturePreparer_init P).
Proof.
  induction 1 as [|self x _ IH|self x _ IH].
  - reflexivity.
  - rewrite fit_unfold. cbn [fst]. now rewrite fit_powers.
  - unfold fit_transform, bind, call.
    pose proof (fit_powers self x) as Hp.
    destruct (__fit x self) as [st [a|e]]; cbn [fst] in *; congruence.
Qed.

End Fit.

(** ** Concatenating arrays of different dimensions *)

Section Concatenate.

Context {F : Type} {num : Numeric F}.

Lemma concat_A2_with_A3 (n : nat) (l : list (ndarray F)) (ps : list (matrix F)) :
  In (A3 ps) l -> concat_A2 n l = Raise ValueError.
Proof.
  induction l as [|a l IH]; intros Hin; [contradiction|].
  destruct a as [m|qs]; [|reflexivity].
  destruct Hin as [Heq|Hin]; [discriminate|].
  simpl. rewrite (IH Hin). destruct (nrows m =? n); reflexivity.
Qed.

Lemma concat_A3_with_A2 (n k : nat) (l : list (ndarray F)) (m : matrix F) :
  In (A2 m) l -> concat_A3 n k l = Raise ValueError.
Proof.
  induction l as [|a l IH]; intros Hin; [contradiction|].
  destruct a as [m'|qs]; [reflexivity|].
  destruct Hin as [Heq|Hin]; [discriminate|].
  simpl. rewrite (IH Hin). destruct (forallb _ qs); reflexivity.
Qed.

(** A list that holds a 2-d and a 3-d array cannot be concatenated. *)
Lemma finish_mixed (l : list (ndarray F)) (m : matrix F) (ps : list (matrix F)) :
  In (A2 m) l -> In (A3 ps) l -> finish l = Raise ValueError.
Proof.
  intros H2 H3.
  destruct l as [|a [|b l]].
  - contradiction.
  - destruct H2 as [->|[]]. destruct H3 as [?|[]]. discriminate.
  - change (finish (a :: b :: l)) with (np_concatenate (a :: b :: l)).
    unfold np_concatenate. destruct a as [m'|[|p qs]].
    + rewrite (concat_A2_with_A3 _ _ _ H3). reflexivity.
    + reflexivity.
    + rewrite (concat_A3_with_A2 _ _ _ _ H2). reflexivity.
Qed.

Lemma concat_A3_planes (n k : nat) (qs : list (matrix F)) :
  Forall (fun q => nrows q = n /\ ncols q = k) qs ->
  concat_A3 n k (map (fun q => A3 [q]) qs) = Ok qs.
Proof.
  induction 1 as [|q qs [Hn Hk] _ IH]; simpl; [reflexivity|].
  rewrite Hn, Hk, !Nat.eqb_refl, IH. reflexivity.
Qed.

(** Several 3-d arrays of one plane each, all of the shape of the
    first, are joined plane after plane; a single one is returned. *)
Lemma finish_planes (qs : list (matrix F)) (n k : nat) :
  qs <> [] ->
  Forall (fun q => nrows q = n /\ ncols q = k) qs ->
  finish (map (fun q => A3 [q]) qs) = Ok (A3 qs).
Proof.
  intros Hne Hall. destruct qs as [|q [|q' qs]]; [congruence|reflexivity|].
  change (finish (map (fun q => A3 [q]) (q :: q' :: qs)))
    with (rmap (@A3 F) (concat_A3 (nrows q) (ncols q)
                          (map (fun q => A3 [q]) (q :: q' :: qs)))).
  rewrite (concat_A3_planes (n := nrows q) (k := ncols q)); [reflexivity|].
  inversion Hall as [|? ? [Hn Hk] _]; subst.
  eapply Forall_impl; [|exact Hall]. intros a [-> ->]. now split.
Qed.

End Concatenate.

(** ** Distinct values and pair enumeration *)

Section Counting.

Context {F : Type} {num : Numeric F}.

Lemma np_unique_len_distinct (col : list F) :
  2 < np_unique_len col <-> more_than_two_distinct col.
Proof.
  unfold np_unique_len, more_than_two_distinct. split.
  - intros Hlen.
    pose proof (NoDup_nodup F_eq_dec col) as Hnd.
    assert (Hin : forall v, In v (nodup F_eq_dec col) -> In v col)
      by (intros v; apply nodup_In).
    destruct (nodup F_eq_dec col) as [|a [|b [|c l]]]; simpl in Hlen; try lia.
    exists a, b, c.
    inversion Hnd as [|? ? Ha Hnd']; subst.
    inversion Hnd' as [|? ? Hb _]; subst.
    repeat split; try (apply Hin; simpl; tauto).
    + intros ->. apply Ha. now left.
    + intros ->. apply Ha. right. now left.
    + intros ->. apply Hb. now left.
  - intros (a & b & c & Ha & Hb & Hc & Hab & Hac & Hbc).
    change 2 with (pred (length [a; b; c])).
    apply Nat.lt_le_trans with (length [a; b; c]); [simpl; lia|].
    apply NoDup_incl_length.
    + repeat constructor; simpl; intuition congruence.
    + intros v [<-|[<-|[<-|[]]]]; now apply nodup_In.
Qed.

Lemma compute_mask_nth (x : matrix F) (c : nat) :
  c < ncols x ->
  (nth c (compute_mask x) false = true <-> more_than_two_distinct (column x c)).
Proof.
  intros Hc. unfold compute_mask, column.
  rewrite (nth_indep _ false (2 <? np_unique_len [])) by (now rewrite length_map).
  rewrite (map_nth (fun col => 2 <? np_unique_len col)).
  rewrite Nat.ltb_lt. apply np_unique_len_distinct.
Qed.

Lemma triangle_S (n : nat) : triangle (S n) = triangle n + S n.
Proof.
  unfold triangle.
  replace (S n * (S n + 1)) with (n * (n + 1) + S n * 2) by lia.
  apply Nat.div_add. discriminate.
Qed.

Lemma triangle_mono (i n : nat) : i <= n -> triangle i <= triangle n.
Proof.
  induction 1 as [|n _ IH]; [lia|]. rewrite triangle_S. lia.
Qed.

(** The enumeration [for i in range(n) for j in range(i + 1)] puts the
    pair [(i, j)] at position [triangle i + j]. *)
Lemma pair_enumeration {A : Type} (g : nat -> nat -> A) (n : nat) :
  let l := flat_map (fun i => map (g i) (seq 0 (i + 1))) (seq 0 n) in
  length l = triangle n /\
  forall i j, j <= i -> i < n -> nth_error l (triangle i + j) = Some (g i j).
Proof.
  induction n as [|n [IHlen IHnth]]; cbv zeta.
  - split; [reflexivity|]. intros; lia.
  - rewrite seq_S, flat_map_app. cbn [flat_map plus]. rewrite app_nil_r.
    split.
    + rewrite length_app, IHlen, length_map, length_seq, triangle_S. lia.
    + intros i j Hj Hi. destruct (Nat.eq_dec i n) as [->|Hne].
      * rewrite nth_error_app2 by lia.
        replace (triangle n + j - length _) with j by lia.
        rewrite nth_error_map, nth_error_seq.
        destruct (Nat.ltb_spec j (n + 1)); [reflexivity|lia].
      * assert (Hlt : triangle i + j < triangle n).
        { apply Nat.lt_le_trans with (triangle (S i)).
          - rewrite triangle_S. lia.
          - apply triangle_mono. lia. }
        rewrite nth_error_app1 by lia. apply IHnth; lia.
Qed.

Lemma col_mul_nth (c d : list F) (r : nat) (e : F) :
  r < length c -> r < length d ->
  nth r (col_mul c d) e = fmul (nth r c e) (nth r d e).
Proof.
  unfold col_mul. revert d r.
  induction c as [|a c IH]; intros [|b d] [|r] Hc Hd; simpl in *; try lia.
  - reflexivity.
  - apply IH; lia.
Qed.

End Counting.

(** ** Properties of the class *)

Section Properties.

Context {F : Type} {num : Numeric F} {skl : Scaler F}.

(** C2.  For every configuration, every instance and every matrix [x],
    [fit_transform(x)] is [fit(x)] followed by [transform(x)] on the same
    instance: the two runs return the same matrix or raise the same
    exception, and leave the instance in the same state. *)
Theorem fit_transform_is_fit_then_transform (self : FeaturePreparer F) (x : matrix F) :
  fit_transform x self =
  bind (fit x) (fun _ => call (fun self' => transform self' x)) self.
Proof.
  unfold fit_transform, fit, bind, call, ret, transform.
  rewrite fit_run.
  destruct (getitem_mask (cols x) (compute_mask x)) as [nbf|e]; [|reflexivity].
  cbv zeta.
  destruct (apply_powers _ x) as [x_new|e] eqn:Ha; [|reflexivity].
  destruct (scaler_fit (scaler self) x_new) as [s [[]|e]]; cbn [fst snd rmap rbind];
    [|reflexivity].
  cbn [scaler].
  rewrite (apply_powers_scaler (powers self) s (scaler self)), Ha.
  reflexivity.
Qed.

(** C3.  With the default configuration [[1]], [apply_powers] returns
    its argument unchanged, on every instance whose column layout is
    that of the argument (never fitted, or fitted on a matrix of the
    same column count). *)
Theorem apply_powers_default_is_identity (self : FeaturePreparer F) (x : matrix F) :
  powers self = powers (FeaturePreparer_init (skl := skl) None) ->
  layout_compatible self x ->
  apply_powers self x = Ok (A2 x).
Proof.
  unfold layout_compatible, apply_powers, apply_powers_list, getitem_cols.
  intros HP Hmk. rewrite HP. cbn [FeaturePreparer_init powers].
  destruct (non_boolean_features_mask self) as [mk|].
  - destruct Hmk as [Hne Hlen].
    rewrite (getitem_mask_ok (cols x) Hne Hlen). reflexivity.
  - reflexivity.
Qed.

(** C9.  After a completed [fit] on [x], [transform] of a matrix whose
    column count differs from that of [x] raises the index error of the
    boolean-mask selection (the mask does not match the indexed axis);
    it returns no matrix. *)
Theorem transform_column_count_mismatch (self st : FeaturePreparer F)
  (x x' : matrix F) :
  fit x self = (st, Ok tt) ->
  ncols x' <> ncols x ->
  transform st x' = Raise IndexError.
Proof.
  intros Hfit Hn.
  destruct (fit_fitted_for self x x Hfit eq_refl) as (Hmk & _).
  unfold transform, apply_powers, apply_powers_list, getitem_cols.
  rewrite Hmk, getitem_mask_mismatch; [reflexivity|].
  rewrite compute_mask_length. unfold ncols in *. lia.
Qed.

(** C10.  Provided the scaler's [fit] does not depend on what the scaler
    had learned before, [fit(y)] on an instance with any history of
    [fit] and [fit_transform] calls ends as it does on a fresh instance
    of the same configuration, and when it completes it leaves the same
    mask, original standard deviations and scaler statistics, so that
    [transform] and [expand_columns_names_list] agree afterwards. *)
Theorem refit_resets_learned_state (P : option (list power))
  (self : FeaturePreparer F) (y : matrix F) :
  (forall (s s' : scaler_state) (a : ndarray F), scaler_fit s a = scaler_fit s' a) ->
  reachable P self ->
  snd (fit y self) = snd (fit y (FeaturePreparer_init P)) /\
  (snd (fit y self) = Ok tt ->
   fst (fit y self) = fst (fit y (FeaturePreparer_init P)) /\
   (forall x, transform (fst (fit y self)) x =
              transform (fst (fit y (FeaturePreparer_init P))) x) /\
   (forall columns,
      expand_columns_names_list (fst (fit y self)) columns =
      expand_columns_names_list (fst (fit y (FeaturePreparer_init P))) columns)).
Proof.
  intros Hreset Hreach. apply reachable_powers in Hreach.
  assert (Hrun : snd (fit y self) = snd (fit y (FeaturePreparer_init P)) /\
                 (snd (fit y self) = Ok tt ->
                  fst (fit y self) = fst (fit y (FeaturePreparer_init P)))).
  { rewrite !fit_unfold, !fit_run. cbn [fst snd]. rewrite Hreach.
    destruct (getitem_mask (cols y) (compute_mask y)) as [nbf|e];
      [|split; [reflexivity|discriminate]].
    cbv zeta.
    rewrite (apply_powers_scaler _ (scaler self)
               (scaler (FeaturePreparer_init P))).
    destruct (apply_powers _ y) as [x_new|e];
      [|split; [reflexivity|discriminate]].
    rewrite (Hreset (scaler self) (scaler (FeaturePreparer_init P))).
    split; reflexivity. }
  destruct Hrun as [Hres Hst]. split; [exact Hres|].
  intros Hok. specialize (Hst Hok). rewrite Hst. repeat split.
Qed.

(** C4.  [fit] assigns a mask with one entry per column of the fitting
    matrix, true exactly for the columns with more than two distinct
    values, whether or not [fit] completes.  When it completes,
    [apply_powers] on any matrix of the same column count returns the
    layout of [expanded_columns], in which the integer-power, log and
    exp branches range over [non_boolean_indices] of the mask: the
    columns whose entry is true and no other. *)
Theorem fit_mask_and_branches (self : FeaturePreparer F) (x : matrix F) :
  exists mk,
    non_boolean_features_mask (fst (fit x self)) = Some mk /\
    length mk = ncols x /\
    (forall c, c < ncols x ->
       (nth c mk false = true <-> more_than_two_distinct (column x c))) /\
    (forall c, In c (non_boolean_indices mk) <->
               c < ncols x /\ nth c mk false = true) /\
    (snd (fit x self) = Ok tt ->
     exists sd,
       orig_std (fst (fit x self)) = Some sd /\
       sd = map (fun c => np_std (column x c)) (non_boolean_indices mk) /\
       forall x', ncols x' = ncols x ->
         apply_powers (fst (fit x self)) x' =
         Ok (A2 (mkMatrix (nrows x')
                   (expanded_columns (powers self) mk sd x')))).
Proof.
  exists (compute_mask x).
  assert (Hmask : non_boolean_features_mask (fst (fit x self)) =
                  Some (compute_mask x)).
  { rewrite fit_unfold, fit_run. cbn [fst].
    destruct (getitem_mask (cols x) (compute_mask x)); [|reflexivity].
    cbv zeta. destruct (apply_powers _ x); reflexivity. }
  split; [exact Hmask|].
  split; [apply compute_mask_length|].
  split; [intros c Hc; now apply compute_mask_nth|].
  split.
  { intros c. rewrite non_boolean_indices_spec, compute_mask_length. tauto. }
  intros Hok.
  destruct (fit x self) as [st r] eqn:Hfit. cbn [fst snd] in *. subst r.
  exists (map np_std (compress (compute_mask x) (cols x))).
  destruct (fit_fitted_for self x x Hfit eq_refl)
    as (_ & Hsd & HP & Hne & Hprod & _).
  split; [exact Hsd|].
  split.
  { rewrite (compress_indices [] (compute_mask x) (cols x))
      by apply compute_mask_length.
    rewrite map_map. reflexivity. }
  intros x' Hn.
  rewrite (apply_powers_fitted st x' Hmask Hsd Hne).
  - rewrite HP, Hn, Hprod. reflexivity.
  - rewrite Hn. apply compute_mask_length.
  - rewrite length_map. apply compress_length, compute_mask_length.
Qed.

(** C5.  With ["perm"] in the configuration, [apply_powers] on an
    instance fitted for the [n] columns of [x] puts, between the
    identity and power columns and the log and exp columns, exactly
    [n * (n + 1) / 2] columns: position [i * (i + 1) / 2 + j] holds the
    elementwise product of columns [i] and [j] of [x], for all
    [j <= i < n], boolean columns included. *)
Theorem perm_appends_pairwise_products (self : FeaturePreparer F) (x : matrix F) :
  fitted_for self x ->
  py_in (PStr "perm") (powers self) = true ->
  exists mk sd pairs,
    non_boolean_features_mask self = Some mk /\
    orig_std self = Some sd /\
    apply_powers self x =
      Ok (A2 (mkMatrix (nrows x)
                ((identity_columns (powers self) x ++ power_columns (powers self) mk x)
                 ++ pairs
                 ++ (log_columns (powers self) mk x
                     ++ exp_columns (powers self) mk sd x)))) /\
    length pairs = ncols x * (ncols x + 1) / 2 /\
    (forall i j, j <= i -> i < ncols x ->
       nth_error pairs (i * (i + 1) / 2 + j) =
       Some (col_mul (column x i) (column x j))) /\
    (wf_matrix x ->
     forall i j r d, i < ncols x -> j < ncols x -> r < nrows x ->
       nth r (col_mul (column x i) (column x j)) d =
       fmul (nth r (column x i) d) (nth r (column x j) d)).
Proof.
  intros (mk & sd & Hmk & Hsd & Hne & Hlen & Hsdlen) Hperm.
  exists mk, sd, (pair_columns x).
  split; [exact Hmk|]. split; [exact Hsd|].
  split.
  { rewrite (apply_powers_fitted self x Hmk Hsd Hne Hlen Hsdlen).
    assert (Hn : 0 < ncols x).
    { rewrite <- Hlen. destruct mk; [congruence|simpl; lia]. }
    unfold produces. rewrite Hperm.
    destruct (Nat.ltb_spec 0 (ncols x)); [|lia].
    rewrite !orb_true_r. cbn [orb].
    unfold expanded_columns, perm_columns. rewrite Hperm, <- !app_assoc.
    reflexivity. }
  unfold pair_columns.
  destruct (pair_enumeration (fun i j => col_mul (column x i) (column x j)) (ncols x))
    as [Hl Hnth].
  split; [exact Hl|]. split; [exact Hnth|].
  intros Hwf i j r d Hi Hj Hr.
  assert (Hcol : forall k, k < ncols x -> length (column x k) = nrows x).
  { intros k Hk. unfold wf_matrix in Hwf. rewrite Forall_forall in Hwf.
    apply Hwf. unfold column. apply nth_In. exact Hk. }
  apply col_mul_nth; rewrite Hcol; assumption.
Qed.

(** C7, as the code has it.  With ["log"] in the configuration, [apply_powers] on
    an instance fitted for the columns of [x] returns a matrix whose
    log block holds [log(v + 1)] for every entry [v] of every selected
    column, in column order.  It tests no entry: the call returns
    whatever the values are, those at or below [-1] included. *)
Theorem log_branch_returns (self : FeaturePreparer F) (x : matrix F) :
  fitted_for self x ->
  py_in (PStr "log") (powers self) = true ->
  exists mk sd,
    non_boolean_features_mask self = Some mk /\
    orig_std self = Some sd /\
    apply_powers self x =
      Ok (A2 (mkMatrix (nrows x)
                ((identity_columns (powers self) x ++ power_columns (powers self) mk x
                  ++ perm_columns (powers self) x)
                 ++ map (fun c => map (fun v => flog (fadd v fone)) (column x c))
                        (non_boolean_indices mk)
                 ++ exp_columns (powers self) mk sd x))).
Proof.
  intros (mk & sd & Hmk & Hsd & Hne & Hlen & Hsdlen) Hlog.
  exists mk, sd. split; [exact Hmk|]. split; [exact Hsd|].
  rewrite (apply_powers_fitted self x Hmk Hsd Hne Hlen Hsdlen).
  unfold produces. rewrite Hlog, !orb_true_r. cbn [orb].
  unfold expanded_columns, log_columns. rewrite Hlog, <- !app_assoc.
  reflexivity.
Qed.

(** C8, as the code has it.  On an instance that was never fitted the mask is
    [None], which numpy reads as a new axis: the selection is a 3-d
    array and raises nothing.  With an integer power other than 1 or
    the log or exp token in the configuration, [apply_powers] then
    raises a type error when ["exp"] is present (division by [None]);
    otherwise a dimension error from the concatenation when the 3-d
    pieces meet a 2-d one (the identity piece, or the pairwise products
    of a matrix with at least one column); and otherwise it returns the
    3-d array of the power and log planes. *)
Theorem apply_powers_before_fit (self : FeaturePreparer F) (x : matrix F) :
  non_boolean_features_mask self = None ->
  orig_std self = None ->
  int_powers (powers self) <> [] \/ py_in (PStr "log") (powers self) = true \/
  py_in (PStr "exp") (powers self) = true ->
  apply_powers self x =
  if py_in (PStr "exp") (powers self) then Raise TypeError
  else if py_in (PInt 1) (powers self)
          || (py_in (PStr "perm") (powers self) && (0 <? ncols x))
       then Raise ValueError
       else Ok (A3 (map (fun p => mat_map (fun v => fpow v p) x)
                        (int_powers (powers self)) ++
                    (if py_in (PStr "log") (powers self)
                     then [mat_map (fun v => flog (fadd v fone)) x]
                     else []))).
Proof.
  intros Hmask Hstd Hcfg.
  unfold apply_powers, apply_powers_list.
  rewrite Hmask, Hstd.
  set (Q := powers self) in *.
  cbn [getitem_cols rbind nd_map map].
  destruct (py_in (PStr "exp") Q) eqn:Hexp; [reflexivity|].
  cbn [rbind].
  set (planes := map (fun p => mat_map (fun v => fpow v p) x) (int_powers Q) ++
                 (if py_in (PStr "log") Q
                  then [mat_map (fun v => flog (fadd v fone)) x] else [])).
  assert (Hplanes : planes <> []).
  { unfold planes. destruct Hcfg as [Hi|[Hl|Hl]]; [| |congruence].
    - destruct (int_powers Q); [congruence|discriminate].
    - rewrite Hl. intros H. apply app_eq_nil in H. destruct H; discriminate. }
  assert (Hshape : Forall (fun q => nrows q = nrows x /\ ncols q = ncols x) planes).
  { unfold planes. apply Forall_app. split.
    - apply Forall_forall. intros q Hq. apply in_map_iff in Hq.
      destruct Hq as (p & <- & _). split; [reflexivity|].
      unfold ncols; cbn [mat_map cols]. apply length_map.
    - destruct (py_in (PStr "log") Q); repeat constructor.
      unfold ncols; cbn [mat_map cols]. apply length_map. }
  assert (Hin3 : exists q, In q planes)
    by (destruct planes as [|q ?]; [congruence|exists q; now left]).
  destruct Hin3 as [q Hq].
  match goal with |- finish ?l = _ => set (fl := l) end.
  assert (Hl3 : In (A3 [q]) fl).
  { subst fl. unfold planes in Hq. apply in_app_or in Hq.
    assert (Hcase :
              In (A3 [q]) (map (fun p => A3 [mat_map (fun v => fpow v p) x])
                               (int_powers Q)) \/
              (py_in (PStr "log") Q = true /\
               q = mat_map (fun v => flog (fadd v fone)) x)).
    { destruct Hq as [Hq|Hq].
      - left. apply in_map_iff in Hq. destruct Hq as (p & <- & Hp).
        apply in_map_iff. exists p. split; [reflexivity|exact Hp].
      - right. destruct (py_in (PStr "log") Q); [|contradiction].
        destruct Hq as [<-|[]]. split; reflexivity. }
    destruct Hcase as [H|[Hl ->]].
    - destruct (py_in (PStr "log") Q), (py_in (PStr "perm") Q);
        repeat rewrite in_app_iff; tauto.
    - rewrite Hl. destruct (py_in (PStr "perm") Q);
        repeat rewrite in_app_iff; cbn [In]; tauto. }
  assert (Hno : py_in (PInt 1) Q || (py_in (PStr "perm") Q && (0 <? ncols x)) = false ->
                fl = map (fun q => A3 [q]) planes).
  { subst fl. intros Hno. apply orb_false_iff in Hno. destruct Hno as [H1 Hpm].
    rewrite H1. unfold planes. rewrite map_app, map_map.
    destruct (py_in (PStr "perm") Q); cbn [andb] in Hpm.
    + destruct (Nat.ltb_spec 0 (ncols x)); [discriminate|].
      unfold perm_pieces. replace (ncols x) with 0 by lia.
      cbn [seq flat_map app]. rewrite app_nil_r.
      destruct (py_in (PStr "log") Q); cbn [map app];
        rewrite ?app_nil_r; reflexivity.
    + destruct (py_in (PStr "log") Q); cbn [map app];
        rewrite ?app_nil_r; reflexivity. }
  assert (Hyes : py_in (PInt 1) Q || (py_in (PStr "perm") Q && (0 <? ncols x)) = true ->
                 exists m, In (A2 m) fl).
  { subst fl. intros Hyes. apply orb_true_iff in Hyes. destruct Hyes as [H1|Hpm].
    + rewrite H1. exists x.
      destruct (py_in (PStr "perm") Q), (py_in (PStr "log") Q);
        repeat rewrite in_app_iff; cbn [In]; tauto.
    + apply andb_true_iff in Hpm. destruct Hpm as [Hpm Hn]. rewrite Hpm.
      apply Nat.ltb_lt in Hn.
      exists (mat_mul (slice_col x 0) (slice_col x 0)).
      assert (Hpp : In (A2 (mat_mul (slice_col x 0) (slice_col x 0)))
                      (perm_pieces x)).
      { unfold perm_pieces. destruct (ncols x) as [|n]; [lia|].
        rewrite <- cons_seq. simpl. now left. }
      destruct (py_in (PStr "log") Q);
        repeat rewrite in_app_iff; cbn [In]; tauto. }
  destruct (py_in (PInt 1) Q || (py_in (PStr "perm") Q && (0 <? ncols x))).
  - destruct (Hyes eq_refl) as [m Hm]. exact (finish_mixed _ _ _ Hm Hl3).
  - rewrite (Hno eq_refl).
    exact (finish_planes Hplanes Hshape).
Qed.

(** C1, as the code has it.  On an instance that completed [fit] on a matrix of
    as many columns as there are names, [expand_columns_names_list]
    returns the names followed, for every configuration entry other
    than 1 in configuration order (integer powers and the string
    tokens alike), by the names of the selected columns prefixed with
    [str] of the entry and an underscore; its length is the number of
    names plus the number of such entries times the number of selected
    columns. *)
Theorem expand_columns_names_list_fitted (self st : FeaturePreparer F)
  (x : matrix F) (columns : list string) :
  fit x self = (st, Ok tt) ->
  length columns = ncols x ->
  let mk := compute_mask x in
  let entries := filter (fun p => negb (power_eqb p (PInt 1))) (powers st) in
  let names :=
    columns ++
    flat_map (fun p => map (fun c => (py_str p ++ "_" ++ nth c columns "")%string)
                           (non_boolean_indices mk))
             entries in
  non_boolean_features_mask st = Some mk /\
  expand_columns_names_list st columns = Ok names /\
  length names =
    length columns + length entries * length (non_boolean_indices mk).
Proof.
  intros Hfit Hlen. cbv zeta.
  destruct (fit_fitted_for self x x Hfit eq_refl) as (Hmk & _ & _ & Hne & _).
  assert (Hlen' : length (compute_mask x) = length columns)
    by (rewrite compute_mask_length; congruence).
  split; [exact Hmk|]. split.
  - unfold expand_columns_names_list. rewrite Hmk.
    rewrite (getitem_mask_ok columns Hne Hlen'). cbn [rbind].
    unfold prefixes.
    rewrite (compress_indices ""%string (compute_mask x) columns Hlen').
    rewrite flat_map_concat_map, map_map, <- flat_map_concat_map.
    f_equal. f_equal. apply flat_map_ext. intros p. rewrite map_map. reflexivity.
  - rewrite length_app. f_equal.
    induction (filter (fun p => negb (power_eqb p (PInt 1))) (powers st))
      as [|p ps IH]; [reflexivity|].
    cbn [flat_map]. rewrite length_app, length_map, IH. simpl. reflexivity.
Qed.

End Properties.

(** ** The real-number model: standardisation *)

Module RealFacts.

Import RealModel.

Local Open Scope R_scope.

Lemma R_sum_constant (c : R) (col : list R) :
  (forall v, In v col -> v = c) -> R_sum col = INR (length col) * c.
Proof.
  induction col as [|a col IH]; intros Hc.
  - simpl. ring.
  - change (R_sum (a :: col)) with (a + R_sum col).
    rewrite IH by (intros; apply Hc; now right).
    rewrite (Hc a) by now left.
    cbn [length]. rewrite S_INR. ring.
Qed.

Lemma R_mean_constant (c : R) (col : list R) :
  col <> [] -> (forall v, In v col -> v = c) -> R_mean col = c.
Proof.
  intros Hne Hc. unfold R_mean. rewrite (@R_sum_constant c col Hc).
  field. apply not_0_INR. destruct col; [congruence|discriminate].
Qed.

Lemma R_std_constant (c : R) (col : list R) :
  (forall v, In v col -> v = c) -> R_std col = 0.
Proof.
  intros Hc. unfold R_std.
  replace (R_mean (map (fun v => Rsqr (v - R_mean col)) col)) with 0;
    [apply sqrt_0|].
  destruct col as [|a col].
  - unfold R_mean. simpl. unfold Rdiv. ring.
  - unfold R_mean at 1.
    rewrite (@R_sum_constant 0).
    + unfold Rdiv. ring.
    + intros v Hv. apply in_map_iff in Hv. destruct Hv as (u & <- & Hu).
      rewrite (@R_mean_constant c) by (try discriminate; exact Hc).
      rewrite (Hc u Hu). unfold Rsqr. ring.
Qed.

Lemma combine_maps {A B C : Type} (f : A -> B) (g : A -> C) (l : list A) :
  combine l (combine (map f l) (map g l)) = map (fun a => (a, (f a, g a))) l.
Proof.
  induction l as [|a l IH]; simpl; [reflexivity|]. now rewrite IH.
Qed.

(** What the scaler returns on the array it was fitted on. *)
Lemma std_scaler_fit_transform (old s : option scaler_stats) (e : matrix R) :
  std_scaler_fit old (A2 e) = (s, Ok tt) ->
  s = Some (mkStats (map R_mean (cols e))
              (map (fun c => handle_zeros_in_scale (R_std c)) (cols e))) /\
  std_scaler_transform s (A2 e) =
  Ok (A2 (mkMatrix (nrows e)
            (map (fun col =>
                    map (fun v => (v - R_mean col) / handle_zeros_in_scale (R_std col))
                        col)
                 (cols e)))).
Proof.
  unfold std_scaler_fit.
  destruct ((nrows e =? 0) || (ncols e =? 0))%nat eqn:Hchk; [discriminate|].
  intros [= <-]. split; [reflexivity|].
  apply orb_false_iff in Hchk. destruct Hchk as [Hrows _].
  unfold std_scaler_transform. cbn [mean_ scale_].
  rewrite Hrows. unfold ncols. rewrite length_map, Nat.eqb_refl. cbn [orb negb].
  rewrite combine_maps, map_map. reflexivity.
Qed.

(** C6.  In the real-number model of the scaler: when [fit] completes
    and a column of the expanded fitting matrix is constant, its
    learned standard deviation is 0 and is stored as 1; [transform] of
    the fitting matrix then returns normally, and that column of the
    output is [(v - mean) / 1], which is 0 at every row. *)
Theorem constant_column_transforms_to_zero (self st : FeaturePreparer R)
  (x e : matrix R) (j : nat) (col : list R) (c : R) :
  fit x self = (st, Ok tt) ->
  apply_powers st x = Ok (A2 e) ->
  nth_error (cols e) j = Some col ->
  (forall v, In v col -> v = c) ->
  R_std col = 0 /\
  exists stats t,
    scaler st = Some stats /\
    nth_error (scale_ stats) j = Some 1 /\
    transform st x = Ok (A2 t) /\
    nth_error (cols t) j = Some (map (fun v => (v - R_mean col) / 1) col) /\
    nth_error (cols t) j = Some (map (fun _ => 0) col).
Proof.
  intros Hfit Hexp Hj Hc.
  pose proof (@R_std_constant c col Hc) as Hstd.
  split; [exact Hstd|].
  apply fit_ok_inv in Hfit. cbv zeta in Hfit.
  destruct Hfit as (x_new & _ & Ha & Hs & ->).
  rewrite (apply_powers_scaler _ _ (scaler self)) in Hexp.
  rewrite Ha in Hexp. injection Hexp as ->.
  change (@scaler_fit R R_scaler) with std_scaler_fit in *.
  destruct (std_scaler_fit (scaler self) (A2 e)) as [s r] eqn:Hsf.
  cbn [fst snd] in *. subst r.
  destruct (@std_scaler_fit_transform _ _ _ Hsf) as [-> Htr].
  assert (Hhz : handle_zeros_in_scale (R_std col) = 1).
  { rewrite Hstd. unfold handle_zeros_in_scale.
    destruct (Req_dec_T 0 0); [reflexivity|congruence]. }
  eexists. eexists. split; [reflexivity|]. cbn [scale_].
  split.
  { rewrite nth_error_map, Hj. cbn [option_map]. now rewrite Hhz. }
  split.
  { unfold transform. rewrite (apply_powers_scaler _ _ (scaler self)), Ha.
    cbn [rbind scaler]. exact Htr. }
  cbn [cols]. rewrite nth_error_map, Hj. cbn [option_map]. rewrite Hhz.
  split; [reflexivity|].
  f_equal. apply map_ext_in. intros v Hv.
  rewrite (@R_mean_constant c col); [|intros ->; contradiction|exact Hc].
  rewrite (Hc v Hv). unfold Rdiv. ring.
Qed.

(** *** The scenarios *)

Ltac split_members :=
  repeat match goal with
         | H : In _ (_ :: _) |- _ => destruct H as [H|H]
         | H : In _ [] |- _ => destruct H
         end.

Lemma mask_entry_true (col : list R) :
  more_than_two_distinct col -> (2 <? np_unique_len col)%nat = true.
Proof. intros H. apply Nat.ltb_lt. now apply np_unique_len_distinct. Qed.

Lemma mask_entry_false (col : list R) :
  ~ more_than_two_distinct col -> (2 <? np_unique_len col)%nat = false.
Proof.
  intros H. apply Nat.ltb_ge. apply Nat.nlt_ge. intros Hlt. apply H.
  now apply np_unique_len_distinct.
Qed.

Lemma two_valued_column : ~ more_than_two_distinct [0; 1; 0; 1].
Proof.
  intros (a & b & c & Ha & Hb & Hc & Hab & Hac & Hbc).
  split_members; subst; lra.
Qed.

Lemma continuous_column : more_than_two_distinct [1; 2; 3; 4].
Proof.
  exists 1, 2, 3. simpl. repeat split; try tauto; lra.
Qed.

Lemma mask_X1 : compute_mask X1 = [false; true].
Proof.
  unfold compute_mask, X1. cbn [cols map].
  rewrite (mask_entry_false two_valued_column), (mask_entry_true continuous_column).
  reflexivity.
Qed.

(** In the real-number model [fit] completes on every matrix with a
    row and a column for which the configuration yields a column. *)
Lemma R_fit_completes (self : FeaturePreparer R) (x : matrix R) :
  nrows x <> 0%nat -> ncols x <> 0%nat ->
  produces (powers self) (ncols x) = true ->
  expanded_columns (powers self) (compute_mask x)
    (map np_std (compress (compute_mask x) (cols x))) x <> [] ->
  fit x self = (fst (fit x self), Ok tt).
Proof.
  intros Hrows Hcols Hprod Hexp.
  rewrite (surjective_pairing (fit x self)) at 1. f_equal.
  rewrite fit_unfold, fit_run. cbn [snd].
  assert (Hne : compute_mask x <> []).
  { intros Hnil. apply Hcols. rewrite <- compute_mask_length, Hnil. reflexivity. }
  rewrite (getitem_mask_ok (cols x) Hne (compute_mask_length x)). cbv zeta.
  rewrite (apply_powers_fitted
             (mkFeaturePreparer (powers self) (scaler self)
                (Some (map np_std (compress (compute_mask x) (cols x))))
                (Some (compute_mask x)))
             x eq_refl eq_refl Hne (compute_mask_length x))
    by (rewrite length_map; apply compress_length, compute_mask_length).
  cbn [powers]. rewrite Hprod.
  change (@scaler_fit R R_scaler) with std_scaler_fit.
  unfold std_scaler_fit. cbn [nrows cols ncols].
  destruct (Nat.eqb_spec (nrows x) 0); [contradiction|].
  unfold ncols; cbn [cols].
  destruct (expanded_columns _ _ _ x); [congruence|reflexivity].
Qed.

Ltac fit_completes :=
  apply R_fit_completes;
  [discriminate|discriminate|reflexivity
  |unfold expanded_columns, identity_columns; simpl; discriminate].

Lemma fit_X1_default : fit X1 self_default = (fst (fit X1 self_default), Ok tt).
Proof. fit_completes. Qed.

Lemma fit_X1_square : fit X1 self_square = (fst (fit X1 self_square), Ok tt).
Proof. fit_completes. Qed.

Lemma fit_X1_log : fit X1 self_log = (fst (fit X1 self_log), Ok tt).
Proof. fit_completes. Qed.

Lemma fit_X1_perm : fit X1 self_perm = (fst (fit X1 self_perm), Ok tt).
Proof. fit_completes. Qed.

Lemma fit_X_const : fit X_const self_default = (fst (fit X_const self_default), Ok tt).
Proof. fit_completes. Qed.

(** The state a completed [fit] on [x] leaves, field by field. *)
Lemma fitted_state (self : FeaturePreparer R) (x : matrix R) :
  fit x self = (fst (fit x self), Ok tt) ->
  non_boolean_features_mask (fst (fit x self)) = Some (compute_mask x) /\
  orig_std (fst (fit x self)) =
    Some (map np_std (compress (compute_mask x) (cols x))) /\
  powers (fst (fit x self)) = powers self /\
  forall x', ncols x' = ncols x -> fitted_for (fst (fit x self)) x'.
Proof.
  intros Hfit. repeat split;
    try (intros x' Hn; destruct (fit_fitted_for self x x' Hfit Hn)
           as (_ & _ & _ & _ & _ & H); exact H);
    destruct (fit_fitted_for self x x Hfit eq_refl) as (H1 & H2 & H3 & _);
    assumption.
Qed.

(** [apply_powers] on a fitted instance of the real model, as a layout. *)
Lemma R_apply_powers_layout (self : FeaturePreparer R) (x x' : matrix R) :
  fit x self = (fst (fit x self), Ok tt) ->
  ncols x' = ncols x ->
  apply_powers (fst (fit x self)) x' =
  Ok (A2 (mkMatrix (nrows x')
            (expanded_columns (powers self) (compute_mask x)
               (map np_std (compress (compute_mask x) (cols x))) x'))).
Proof.
  intros Hfit Hn.
  destruct (fit_fitted_for self x x' Hfit Hn) as (Hmk & Hsd & HP & Hne & Hprod & _).
  rewrite (apply_powers_fitted _ x' Hmk Hsd Hne).
  - rewrite HP, Hn, Hprod. reflexivity.
  - rewrite Hn. apply compute_mask_length.
  - rewrite length_map. apply compress_length, compute_mask_length.
Qed.

(** *** C1 *)

(** With ["log"] in the configuration the names carry a [log_] entry,
    which a list restricted to the integer powers leaves out. *)
Lemma names_include_string_tokens :
  fit X1 self_log = (fst (fit X1 self_log), Ok tt) /\
  non_boolean_features_mask (fst (fit X1 self_log)) = Some [false; true] /\
  expand_columns_names_list (fst (fit X1 self_log)) names_ab =
    Ok ["a"%string; "b"%string; "log_b"%string] /\
  names_integer_powers_only (powers (fst (fit X1 self_log))) [false; true] names_ab =
    ["a"%string; "b"%string] /\
  expand_columns_names_list (fst (fit X1 self_log)) names_ab <>
    Ok (names_integer_powers_only (powers (fst (fit X1 self_log)))
          [false; true] names_ab).
Proof.
  destruct (fitted_state self_log X1 fit_X1_log) as (Hmk & _ & HP & _).
  rewrite mask_X1 in Hmk.
  assert (Hnames : expand_columns_names_list (fst (fit X1 self_log)) names_ab =
                   Ok ["a"%string; "b"%string; "log_b"%string]).
  { unfold expand_columns_names_list. rewrite Hmk, HP. reflexivity. }
  split; [exact fit_X1_log|]. split; [exact Hmk|]. split; [exact Hnames|].
  rewrite Hnames, HP. split; [reflexivity|discriminate].
Qed.

Lemma expand_columns_names_list_fitted_witness :
  fit X1 self_square = (fst (fit X1 self_square), Ok tt) /\
  length names_ab = ncols X1 /\
  expand_columns_names_list (fst (fit X1 self_square)) names_ab =
    Ok ["a"%string; "b"%string; "2_b"%string].
Proof.
  split; [exact fit_X1_square|]. split; [reflexivity|].
  destruct (expand_columns_names_list_fitted self_square X1 names_ab
              fit_X1_square eq_refl) as (_ & H & _).
  rewrite H, mask_X1.
  destruct (fitted_state self_square X1 fit_X1_square) as (_ & _ & HP & _).
  rewrite HP. reflexivity.
Defined.

(** *** C3 *)

Lemma apply_powers_default_is_identity_witness :
  powers (fst (fit X1 self_default)) = powers (FeaturePreparer_init (skl := R_scaler) None) /\
  layout_compatible (fst (fit X1 self_default)) X1 /\
  apply_powers (fst (fit X1 self_default)) X1 = Ok (A2 X1).
Proof.
  destruct (fitted_state self_default X1 fit_X1_default) as (Hmk & _ & HP & _).
  assert (Hlay : layout_compatible (fst (fit X1 self_default)) X1).
  { unfold layout_compatible. rewrite Hmk, mask_X1. split; [discriminate|reflexivity]. }
  split; [exact HP|]. split; [exact Hlay|].
  exact (apply_powers_default_is_identity (fst (fit X1 self_default)) X1 HP Hlay).
Defined.

(** *** C4: the concrete scenario of the specification *)

Lemma fit_mask_and_branches_witness :
  snd (fit X1 self_square) = Ok tt /\
  non_boolean_features_mask (fst (fit X1 self_square)) = Some [false; true] /\
  apply_powers (fst (fit X1 self_square)) X1 =
    Ok (A2 (mkMatrix 4 [[0; 1; 0; 1]; [1; 2; 3; 4];
                        [powerRZ 1 2; powerRZ 2 2; powerRZ 3 2; powerRZ 4 2]])).
Proof.
  assert (Hok : snd (fit X1 self_square) = Ok tt)
    by exact (f_equal snd fit_X1_square).
  destruct (fit_mask_and_branches self_square X1)
    as (mk & Hmk & _ & _ & _ & Hbr).
  destruct (Hbr Hok) as (sd & _ & _ & Happ).
  destruct (fitted_state self_square X1 fit_X1_square) as (Hmk' & _).
  rewrite Hmk', mask_X1 in Hmk. injection Hmk as <-.
  split; [exact Hok|]. split; [rewrite Hmk'; now rewrite mask_X1|].
  rewrite (Happ X1 eq_refl). reflexivity.
Defined.

(** *** C5 *)

Lemma perm_appends_pairwise_products_witness :
  fitted_for (fst (fit X1 self_perm)) X1 /\
  py_in (PStr "perm") (powers (fst (fit X1 self_perm))) = true /\
  exists pairs,
    length pairs = 3%nat /\
    nth_error pairs 1 = Some (col_mul (column X1 1) (column X1 0)) /\
    apply_powers (fst (fit X1 self_perm)) X1 =
      Ok (A2 (mkMatrix 4 (cols X1 ++ pairs))).
Proof.
  destruct (fitted_state self_perm X1 fit_X1_perm) as (_ & _ & HP & Hfor).
  assert (Hperm : py_in (PStr "perm") (powers (fst (fit X1 self_perm))) = true)
    by (rewrite HP; reflexivity).
  split; [exact (Hfor X1 eq_refl)|]. split; [exact Hperm|].
  destruct (perm_appends_pairwise_products (Hfor X1 eq_refl) Hperm)
    as (mk & sd & pairs & _ & _ & Happ & Hlen & Hnth & _).
  exists pairs. split; [exact Hlen|].
  split; [exact (Hnth 1%nat 0%nat (Nat.le_0_l 1) (Nat.lt_succ_diag_r 1))|].
  rewrite Happ, HP. unfold identity_columns, power_columns, log_columns, exp_columns.
  cbn. rewrite app_nil_r. reflexivity.
Defined.

(** *** C7 *)

(** The log branch on values at and below [-1]: the call returns. *)
Lemma log_below_domain_returns :
  fit X1 self_log = (fst (fit X1 self_log), Ok tt) /\
  non_boolean_features_mask (fst (fit X1 self_log)) = Some [false; true] /\
  py_in (PStr "log") (powers (fst (fit X1 self_log))) = true /\
  column X_low 1 = [-1; -2] /\ -1 <= -1 /\ -2 <= -1 /\
  apply_powers (fst (fit X1 self_log)) X_low =
    Ok (A2 (mkMatrix 2 [[0; 1]; [-1; -2]; [ln (-1 + 1); ln (-2 + 1)]])).
Proof.
  destruct (fitted_state self_log X1 fit_X1_log) as (Hmk & _ & HP & _).
  split; [exact fit_X1_log|].
  split; [now rewrite Hmk, mask_X1|].
  split; [rewrite HP; reflexivity|].
  split; [reflexivity|]. split; [lra|]. split; [lra|].
  rewrite (R_apply_powers_layout self_log X1 X_low fit_X1_log eq_refl), mask_X1.
  reflexivity.
Qed.

Lemma log_branch_returns_witness :
  fitted_for (fst (fit X1 self_log)) X_low /\
  py_in (PStr "log") (powers (fst (fit X1 self_log))) = true /\
  exists out, apply_powers (fst (fit X1 self_log)) X_low = Ok (A2 out).
Proof.
  destruct (fitted_state self_log X1 fit_X1_log) as (_ & _ & HP & Hfor).
  assert (Hlog : py_in (PStr "log") (powers (fst (fit X1 self_log))) = true)
    by (rewrite HP; reflexivity).
  split; [exact (Hfor X_low eq_refl)|]. split; [exact Hlog|].
  destruct (log_branch_returns (Hfor X_low eq_refl) Hlog)
    as (mk & sd & _ & _ & Happ).
  eexists. exact Happ.
Defined.

(** *** C8 *)

(** A squaring configuration without the identity marker, before any
    [fit]: the call returns a 3-d array. *)
Lemma square_before_fit_returns :
  non_boolean_features_mask self_square_only = None /\
  orig_std self_square_only = None /\
  int_powers (powers self_square_only) = [2%Z] /\
  apply_powers self_square_only X1 =
    Ok (A3 [mat_map (fun v => powerRZ v 2) X1]).
Proof. repeat split. Qed.

Lemma apply_powers_before_fit_witness :
  non_boolean_features_mask self_square = None /\
  orig_std self_square = None /\
  (int_powers (powers self_square) <> [] \/
   py_in (PStr "log") (powers self_square) = true \/
   py_in (PStr "exp") (powers self_square) = true) /\
  apply_powers self_square X1 = Raise ValueError.
Proof.
  assert (Hcfg : int_powers (powers self_square) <> [] \/
                 py_in (PStr "log") (powers self_square) = true \/
                 py_in (PStr "exp") (powers self_square) = true)
    by (left; discriminate).
  split; [reflexivity|]. split; [reflexivity|]. split; [exact Hcfg|].
  rewrite (apply_powers_before_fit self_square X1 eq_refl eq_refl Hcfg).
  reflexivity.
Defined.

(** *** C9 *)

Lemma transform_column_count_mismatch_witness :
  fit X1 self_square = (fst (fit X1 self_square), Ok tt) /\
  ncols X_narrow <> ncols X1 /\
  transform (fst (fit X1 self_square)) X_narrow = Raise IndexError.
Proof.
  assert (Hn : ncols X_narrow <> ncols X1) by discriminate.
  split; [exact fit_X1_square|]. split; [exact Hn|].
  exact (transform_column_count_mismatch self_square X1 X_narrow fit_X1_square Hn).
Defined.

(** *** C10 *)

Lemma std_scaler_fit_resets (s s' : option scaler_stats) (a : ndarray R) :
  scaler_fit s a = scaler_fit s' a.
Proof. reflexivity. Qed.

Lemma refit_resets_learned_state_witness :
  (forall (s s' : option scaler_stats) (a : ndarray R),
     scaler_fit s a = scaler_fit s' a) /\
  reachable (Some [PInt 1; PInt 2]) (fst (fit X_const self_square)) /\
  snd (fit X1 (fst (fit X_const self_square))) = Ok tt /\
  fst (fit X1 (fst (fit X_const self_square))) = fst (fit X1 self_square).
Proof.
  assert (Hreach : reachable (Some [PInt 1; PInt 2]) (fst (fit X_const self_square)))
    by exact (reach_fit X_const (reach_init (Some [PInt 1; PInt 2]))).
  split; [exact std_scaler_fit_resets|]. split; [exact Hreach|].
  destruct (refit_resets_learned_state (skl := R_scaler) X1
              std_scaler_fit_resets Hreach) as (Hres & Hst).
  assert (Hok : snd (fit X1 (fst (fit X_const self_square))) = Ok tt)
    by (rewrite Hres; exact (f_equal snd fit_X1_square)).
  split; [exact Hok|]. exact (proj1 (Hst Hok)).
Defined.

(** *** C6 *)

Lemma constant_column_transforms_to_zero_witness :
  fit X_const self_default = (fst (fit X_const self_default), Ok tt) /\
  apply_powers (fst (fit X_const self_default)) X_const = Ok (A2 X_const) /\
  nth_error (cols X_const) 0 = Some [5; 5; 5] /\
  (forall v, In v [5; 5; 5] -> v = 5) /\
  exists t,
    transform (fst (fit X_const self_default)) X_const = Ok (A2 t) /\
    nth_error (cols t) 0 = Some [0; 0; 0].
Proof.
  assert (Hexp : apply_powers (fst (fit X_const self_default)) X_const =
                 Ok (A2 X_const)).
  { rewrite (R_apply_powers_layout self_default X_const X_const fit_X_const eq_refl).
    reflexivity. }
  assert (Hc : forall v, In v [5; 5; 5] -> v = 5).
  { intros v Hv. split_members; subst; reflexivity. }
  split; [exact fit_X_const|]. split; [exact Hexp|].
  split; [reflexivity|]. split; [exact Hc|].
  destruct (constant_column_transforms_to_zero self_default X_const 0
              fit_X_const Hexp eq_refl Hc)
    as (_ & stats & t & _ & _ & Htr & _ & Hzero).
  exists t. split; [exact Htr|exact Hzero].
Defined.

End RealFacts.

(** ** Further properties: errors and edge cases *)

Section EdgeCases.

Context {F : Type} {num : Numeric F} {skl : Scaler F}.

Lemma getitem_cols_raises (x : matrix F) (mask : option (list bool)) (e : exn) :
  getitem_cols x mask = Raise e -> e = IndexError.
Proof.
  destruct mask as [mk|]; [|discriminate].
  unfold getitem_cols, getitem_mask.
  destruct mk as [|b mk]; [now intros [= <-]|].
  destruct (length (b :: mk) =? length (cols x)); [discriminate|now intros [= <-]].
Qed.

Lemma perm_pieces_no_column (x : matrix F) : ncols x = 0 -> perm_pieces x = [].
Proof. unfold perm_pieces. intros ->. reflexivity. Qed.

(** X1.  A configuration in which nothing is recognised (no 1, no other
    integer, no ["log"] or ["exp"], and no ["perm"] unless the matrix has
    no column) leaves [f_list] empty: [apply_powers] raises the index
    error of [f_list[0]] on every instance, fitted or not, and so do
    [transform], [fit] and [fit_transform]; [fit] leaves the scaler as
    it was. *)
Theorem unrecognised_configuration_raises (self : FeaturePreparer F) (x : matrix F) :
  produces (powers self) (ncols x) = false ->
  apply_powers self x = Raise IndexError /\
  transform self x = Raise IndexError /\
  snd (fit x self) = Raise IndexError /\
  snd (fit_transform x self) = Raise IndexError /\
  scaler (fst (fit x self)) = scaler self.
Proof.
  intros Hprod.
  assert (Hany : forall self' : FeaturePreparer F,
             powers self' = powers self -> apply_powers self' x = Raise IndexError).
  { intros self' HP. unfold produces in Hprod. rewrite <- HP in Hprod.
    apply orb_false_iff in Hprod. destruct Hprod as [Hprod Hexp].
    apply orb_false_iff in Hprod. destruct Hprod as [Hprod Hlog].
    apply orb_false_iff in Hprod. destruct Hprod as [Hprod Hperm].
    apply orb_false_iff in Hprod. destruct Hprod as [Hone Hint].
    unfold apply_powers, apply_powers_list.
    rewrite Hone, Hlog, Hexp.
    destruct (getitem_cols x (non_boolean_features_mask self')) as [nbf|e] eqn:Hg.
    - cbn [rbind].
      destruct (int_powers (powers self')); [|discriminate]. cbn [map app].
      destruct (py_in (PStr "perm") (powers self')); [|reflexivity].
      cbn [andb] in Hperm. apply Nat.ltb_ge in Hperm.
      rewrite perm_pieces_no_column by lia. reflexivity.
    - apply getitem_cols_raises in Hg. subst e. reflexivity. }
  assert (Hfit : snd (__fit x self) = Raise IndexError /\
                 scaler (fst (__fit x self)) = scaler self).
  { rewrite fit_run.
    destruct (getitem_mask (cols x) (compute_mask x)) as [nbf|e] eqn:Hg.
    - cbv zeta. rewrite Hany by reflexivity. split; reflexivity.
    - unfold getitem_mask in Hg. destruct (compute_mask x) as [|b mk].
      + injection Hg as <-. split; reflexivity.
      + destruct (length (b :: mk) =? length (cols x)); [discriminate|].
        injection Hg as <-. split; reflexivity. }
  destruct Hfit as [Hres Hsc].
  split; [apply Hany; reflexivity|].
  split; [unfold transform; rewrite Hany by reflexivity; reflexivity|].
  split; [rewrite fit_unfold; cbn [snd]; rewrite Hres; reflexivity|].
  split.
  - unfold fit_transform, bind.
    destruct (__fit x self) as [st [a|e]]; cbn [snd] in *; congruence.
  - rewrite fit_unfold. exact Hsc.
Qed.

(** X2.  [fit] on a matrix without columns raises an index error: the
    mask it has just assigned is the empty array, which numpy refuses
    as an index.  The original standard deviations and the scaler stay
    as they were, and from then on [apply_powers], [transform] and
    [expand_columns_names_list] raise the same error on every input. *)
Theorem fit_without_columns (self : FeaturePreparer F) (x : matrix F) :
  ncols x = 0 ->
  fit x self =
    (mkFeaturePreparer (powers self) (scaler self) (orig_std self) (Some []),
     Raise IndexError) /\
  (forall x', apply_powers (fst (fit x self)) x' = Raise IndexError) /\
  (forall x', transform (fst (fit x self)) x' = Raise IndexError) /\
  (forall columns,
     expand_columns_names_list (fst (fit x self)) columns = Raise IndexError).
Proof.
  intros Hn.
  assert (Hmask : compute_mask x = []).
  { pose proof (compute_mask_length x) as Hl. rewrite Hn in Hl.
    destruct (compute_mask x); [reflexivity|discriminate]. }
  assert (Hfit : fit x self =
                 (mkFeaturePreparer (powers self) (scaler self) (orig_std self)
                    (Some []), Raise IndexError)).
  { rewrite fit_unfold, fit_run, Hmask. reflexivity. }
  rewrite Hfit. cbn [fst].
  split; [reflexivity|].
  split; [reflexivity|]. split; reflexivity.
Qed.

(** X3.  After a completed [fit], [expand_columns_names_list] raises an
    index error for a list of names whose length is not the column
    count of the fitting matrix. *)
Theorem names_length_mismatch (self st : FeaturePreparer F) (x : matrix F)
  (columns : list string) :
  fit x self = (st, Ok tt) ->
  length columns <> ncols x ->
  expand_columns_names_list st columns = Raise IndexError.
Proof.
  intros Hfit Hlen.
  destruct (fit_fitted_for self x x Hfit eq_refl) as (Hmk & _).
  unfold expand_columns_names_list. rewrite Hmk.
  rewrite getitem_mask_mismatch; [reflexivity|].
  rewrite compute_mask_length. lia.
Qed.

(** X4.  Before any [fit], a configuration made of the identity marker
    and ["perm"] only (no other integer, no ["log"], no ["exp"]) needs
    neither the mask nor the standard deviations: [apply_powers]
    returns the original columns, when 1 is present, followed by the
    pairwise products, when ["perm"] is. *)
Theorem identity_and_perm_before_fit (self : FeaturePreparer F) (x : matrix F) :
  non_boolean_features_mask self = None ->
  int_powers (powers self) = [] ->
  py_in (PStr "log") (powers self) = false ->
  py_in (PStr "exp") (powers self) = false ->
  produces (powers self) (ncols x) = true ->
  apply_powers self x =
  Ok (A2 (mkMatrix (nrows x)
            (identity_columns (powers self) x ++ perm_columns (powers self) x))).
Proof.
  intros Hmask Hint Hlog Hexp Hprod.
  unfold apply_powers, apply_powers_list.
  rewrite Hmask, Hint, Hlog, Hexp. cbn [getitem_cols rbind map].
  rewrite app_nil_r.
  set (ms := (if py_in (PInt 1) (powers self) then [x] else []) ++
             (if py_in (PStr "perm") (powers self)
              then flat_map (fun i => map (fun j => mat_mul (slice_col x i) (slice_col x j))
                                          (seq 0 (i + 1)))
                            (seq 0 (ncols x))
              else [])).
  assert (Hfl : (if py_in (PStr "perm") (powers self)
                 then (if py_in (PInt 1) (powers self) then [A2 x] else [])
                      ++ perm_pieces x
                 else if py_in (PInt 1) (powers self) then [A2 x] else []) =
                map A2 ms).
  { unfold ms. rewrite perm_pieces_matrices, map_app.
    destruct (py_in (PInt 1) (powers self)), (py_in (PStr "perm") (powers self));
      cbn [map app]; rewrite ?app_nil_r; reflexivity. }
  rewrite Hfl.
  rewrite (finish_matrices (n := nrows x)).
  - f_equal. f_equal. f_equal. unfold ms, identity_columns, perm_columns.
    rewrite flat_map_app.
    destruct (py_in (PInt 1) (powers self)), (py_in (PStr "perm") (powers self));
      cbn [flat_map app]; rewrite ?app_nil_r, ?pair_matrices_cols; reflexivity.
  - unfold produces in Hprod. rewrite Hint, Hlog, Hexp in Hprod.
    cbn [negb orb] in Hprod. rewrite !orb_false_r in Hprod.
    unfold ms. destruct (py_in (PInt 1) (powers self)); [discriminate|].
    cbn [orb app] in *. apply andb_true_iff in Hprod. destruct Hprod as [-> Hn].
    apply Nat.ltb_lt in Hn. destruct (ncols x) as [|n]; [lia|].
    rewrite <- cons_seq. simpl. discriminate.
  - unfold ms. apply Forall_app. split.
    + destruct (py_in (PInt 1) (powers self)); repeat constructor.
    + destruct (py_in (PStr "perm") (powers self)); [|constructor].
      apply Forall_forall. intros m Hm. apply in_flat_map in Hm.
      destruct Hm as (i & _ & Hm). apply in_map_iff in Hm.
      destruct Hm as (j & <- & _). reflexivity.
Qed.

End EdgeCases.

(** ** Further properties: the shape of the expanded matrix *)

Section Shape.

Context {F : Type} {num : Numeric F} {skl : Scaler F}.

Lemma length_blocks {A B C : Type} (g : A -> B -> C) (l : list B) (ps : list A) :
  length (flat_map (fun p => map (g p) l) ps) = length ps * length l.
Proof.
  induction ps as [|p ps IH]; [reflexivity|].
  cbn [flat_map]. rewrite length_app, length_map, IH. reflexivity.
Qed.

Lemma length_pair_columns (x : matrix F) :
  length (pair_columns x) = triangle (ncols x).
Proof.
  unfold pair_columns.
  exact (proj1 (pair_enumeration (fun i j => col_mul (column x i) (column x j))
                  (ncols x))).
Qed.

Lemma length_expanded_columns (P : list power) (mk : list bool) (sd : list F)
  (x : matrix F) :
  length sd = length (non_boolean_indices mk) ->
  length (expanded_columns P mk sd x) =
  (if py_in (PInt 1) P then ncols x else 0) +
  length (int_powers P) * length (non_boolean_indices mk) +
  (if py_in (PStr "perm") P then triangle (ncols x) else 0) +
  (if py_in (PStr "log") P then length (non_boolean_indices mk) else 0) +
  (if py_in (PStr "exp") P then length (non_boolean_indices mk) else 0).
Proof.
  intros Hsd.
  unfold expanded_columns, identity_columns, power_columns, perm_columns,
    log_columns, exp_columns.
  rewrite !length_app, length_blocks.
  assert (H1 : length (if py_in (PInt 1) P then cols x else []) =
               if py_in (PInt 1) P then ncols x else 0)
    by (destruct (py_in (PInt 1) P); reflexivity).
  assert (H2 : length (if py_in (PStr "perm") P then pair_columns x else []) =
               if py_in (PStr "perm") P then triangle (ncols x) else 0)
    by (destruct (py_in (PStr "perm") P); [apply length_pair_columns|reflexivity]).
  rewrite H1, H2.
  destruct (py_in (PStr "log") P), (py_in (PStr "exp") P);
    cbn [length]; rewrite ?length_map, ?length_combine, ?Hsd, ?Nat.min_id; lia.
Qed.

(** X5.  On an instance fitted for the columns of [x] whose
    configuration yields a piece, [apply_powers] returns a matrix with
    the rows of [x] and with [n] columns for the identity marker, [k]
    columns per integer power other than 1, [n * (n + 1) / 2] for
    ["perm"], and [k] each for ["log"] and ["exp"], where [n] is the
    column count of [x] and [k] the number of selected columns. *)
Theorem expanded_column_count (self : FeaturePreparer F) (x : matrix F) :
  fitted_for self x ->
  produces (powers self) (ncols x) = true ->
  exists mk out,
    non_boolean_features_mask self = Some mk /\
    apply_powers self x = Ok (A2 out) /\
    nrows out = nrows x /\
    ncols out =
      (if py_in (PInt 1) (powers self) then ncols x else 0) +
      length (int_powers (powers self)) * length (non_boolean_indices mk) +
      (if py_in (PStr "perm") (powers self) then ncols x * (ncols x + 1) / 2 else 0) +
      (if py_in (PStr "log") (powers self) then length (non_boolean_indices mk) else 0) +
      (if py_in (PStr "exp") (powers self) then length (non_boolean_indices mk) else 0).
Proof.
  intros (mk & sd & Hmk & Hsd & Hne & Hlen & Hsdlen) Hprod.
  exists mk. eexists. split; [exact Hmk|].
  rewrite (apply_powers_fitted self x Hmk Hsd Hne Hlen Hsdlen), Hprod.
  split; [reflexivity|]. split; [reflexivity|].
  unfold ncols at 1. cbn [cols].
  exact (@length_expanded_columns (powers self) mk sd x Hsdlen).
Qed.

Lemma column_length (x : matrix F) (c : nat) :
  wf_matrix x -> c < ncols x -> length (column x c) = nrows x.
Proof.
  intros Hwf Hc. unfold wf_matrix in Hwf. rewrite Forall_forall in Hwf.
  apply Hwf. unfold column. apply nth_In. exact Hc.
Qed.

Lemma col_mul_length (c d : list F) :
  length c = length d -> length (col_mul c d) = length c.
Proof.
  intros H. unfold col_mul. rewrite length_map, length_combine, <- H.
  apply Nat.min_id.
Qed.

Lemma expanded_columns_wf (P : list power) (mk : list bool) (sd : list F)
  (x : matrix F) :
  wf_matrix x -> length mk = ncols x ->
  Forall (fun c => length c = nrows x) (expanded_columns P mk sd x).
Proof.
  intros Hwf Hlen.
  assert (Hsel : forall c, In c (non_boolean_indices mk) ->
                           length (column x c) = nrows x).
  { intros c Hc. apply non_boolean_indices_spec in Hc.
    apply column_length; [exact Hwf|lia]. }
  unfold expanded_columns. repeat (apply Forall_app; split).
  - unfold identity_columns. destruct (py_in (PInt 1) P); [exact Hwf|constructor].
  - unfold power_columns. apply Forall_forall. intros col Hcol.
    apply in_flat_map in Hcol. destruct Hcol as (p & _ & Hcol).
    apply in_map_iff in Hcol. destruct Hcol as (c & <- & Hc).
    rewrite length_map. now apply Hsel.
  - unfold perm_columns, pair_columns.
    destruct (py_in (PStr "perm") P); [|constructor].
    apply Forall_forall. intros col Hcol.
    apply in_flat_map in Hcol. destruct Hcol as (i & Hi & Hcol).
    apply in_map_iff in Hcol. destruct Hcol as (j & <- & Hj).
    apply in_seq in Hi. apply in_seq in Hj.
    rewrite col_mul_length; rewrite !column_length; trivial; lia.
  - unfold log_columns. destruct (py_in (PStr "log") P); [|constructor].
    apply Forall_forall. intros col Hcol.
    apply in_map_iff in Hcol. destruct Hcol as (c & <- & Hc).
    rewrite length_map. now apply Hsel.
  - unfold exp_columns. destruct (py_in (PStr "exp") P); [|constructor].
    apply Forall_forall. intros col Hcol.
    apply in_map_iff in Hcol. destruct Hcol as ([c s] & <- & Hc).
    apply in_combine_l in Hc. rewrite length_map. now apply Hsel.
Qed.

(** X6.  [apply_powers] keeps arrays rectangular: on an instance fitted
    for the columns of a matrix whose columns all have [nrows] entries,
    every column of the matrix it returns has [nrows] entries as well. *)
Theorem apply_powers_keeps_rectangular (self : FeaturePreparer F) (x out : matrix F) :
  fitted_for self x ->
  wf_matrix x ->
  apply_powers self x = Ok (A2 out) ->
  wf_matrix out /\ nrows out = nrows x.
Proof.
  intros (mk & sd & Hmk & Hsd & Hne & Hlen & Hsdlen) Hwf Happ.
  rewrite (apply_powers_fitted self x Hmk Hsd Hne Hlen Hsdlen) in Happ.
  destruct (produces (powers self) (ncols x)); [|discriminate].
  injection Happ as <-. split; [|reflexivity].
  unfold wf_matrix. cbn [cols nrows].
  now apply expanded_columns_wf.
Qed.

End Shape.

(** ** Further properties: rows, boolean data and the life of an instance *)

Section Rows.

Context {F : Type} {num : Numeric F} {skl : Scaler F}.

Local Abbreviation zip_app l m := (map (fun cd => fst cd ++ snd cd) (combine l m)).

Lemma combine_app_same {A B : Type} (l1 l2 : list A) (m1 m2 : list B) :
  length l1 = length m1 ->
  combine (l1 ++ l2) (m1 ++ m2) = combine l1 m1 ++ combine l2 m2.
Proof.
  revert m1. induction l1 as [|a l1 IH]; intros [|b m1] H; try discriminate.
  - reflexivity.
  - simpl. rewrite IH by (simpl in H; lia). reflexivity.
Qed.

Lemma zip_app_app {A : Type} (l1 l2 m1 m2 : list (list A)) :
  length l1 = length m1 ->
  zip_app (l1 ++ l2) (m1 ++ m2) = zip_app l1 m1 ++ zip_app l2 m2.
Proof. intros H. rewrite combine_app_same by exact H. apply map_app. Qed.

Lemma zip_app_map {A I : Type} (g h : I -> list A) (l : list I) :
  zip_app (map g l) (map h l) = map (fun i => g i ++ h i) l.
Proof.
  induction l as [|i l IH]; [reflexivity|]. simpl. now rewrite IH.
Qed.

Lemma zip_app_blocks {A I : Type} (ga gb : I -> list (list A)) (l : list I) :
  (forall i, In i l -> length (ga i) = length (gb i)) ->
  zip_app (flat_map ga l) (flat_map gb l) = flat_map (fun i => zip_app (ga i) (gb i)) l.
Proof.
  induction l as [|i l IH]; intros H; [reflexivity|].
  cbn [flat_map]. rewrite zip_app_app by (apply H; now left).
  rewrite IH by (intros; apply H; now right). reflexivity.
Qed.

Lemma flat_map_ext_in {A B : Type} (f g : A -> list B) (l : list A) :
  (forall a, In a l -> f a = g a) -> flat_map f l = flat_map g l.
Proof.
  induction l as [|a l IH]; intros H; [reflexivity|].
  cbn [flat_map]. rewrite H by now left.
  rewrite IH by (intros; apply H; now right). reflexivity.
Qed.

Lemma ncols_vstack (a b : matrix F) : ncols b = ncols a -> ncols (vstack a b) = ncols a.
Proof.
  unfold ncols, vstack. cbn [cols]. intros H.
  rewrite length_map, length_combine, H. apply Nat.min_id.
Qed.

Lemma column_vstack (a b : matrix F) (c : nat) :
  ncols b = ncols a -> column (vstack a b) c = column a c ++ column b c.
Proof.
  unfold ncols, column, vstack. cbn [cols]. intros H.
  change (@nil F) with (fst (@nil F, @nil F) ++ snd (@nil F, @nil F)) at 1.
  rewrite (map_nth (fun cd : list F * list F => fst cd ++ snd cd)).
  rewrite combine_nth by (symmetry; exact H). reflexivity.
Qed.

Lemma col_mul_app (c1 c2 d1 d2 : list F) :
  length c1 = length d1 ->
  col_mul (c1 ++ c2) (d1 ++ d2) = col_mul c1 d1 ++ col_mul c2 d2.
Proof.
  intros H. unfold col_mul. rewrite combine_app_same by exact H. apply map_app.
Qed.

Lemma expanded_columns_vstack (P : list power) (mk : list bool) (sd : list F)
  (a b : matrix F) :
  length mk = ncols a -> ncols b = ncols a -> wf_matrix a ->
  expanded_columns P mk sd (vstack a b) =
  zip_app (expanded_columns P mk sd a) (expanded_columns P mk sd b).
Proof.
  intros Hlen Hn Hwf. unfold expanded_columns.
  rewrite zip_app_app.
  2:{ unfold identity_columns. destruct (py_in (PInt 1) P); [|reflexivity].
      symmetry. exact Hn. }
  rewrite zip_app_app.
  2:{ unfold power_columns. now rewrite !length_blocks. }
  rewrite zip_app_app.
  2:{ unfold perm_columns. destruct (py_in (PStr "perm") P); [|reflexivity].
      now rewrite !length_pair_columns, Hn. }
  rewrite zip_app_app.
  2:{ unfold log_columns. destruct (py_in (PStr "log") P); [|reflexivity].
      now rewrite !length_map. }
  f_equal; [|f_equal; [|f_equal; [|f_equal]]].
  - unfold identity_columns. destruct (py_in (PInt 1) P); reflexivity.
  - unfold power_columns. rewrite zip_app_blocks by (intros; now rewrite !length_map).
    apply flat_map_ext. intros p. rewrite zip_app_map. apply map_ext. intros c.
    now rewrite column_vstack, map_app.
  - unfold perm_columns, pair_columns.
    destruct (py_in (PStr "perm") P); [|reflexivity].
    rewrite ncols_vstack, Hn by exact Hn.
    rewrite zip_app_blocks by (intros; now rewrite !length_map).
    rewrite <- Hn at 1.
    replace (ncols b) with (ncols a) by (symmetry; exact Hn).
    apply flat_map_ext_in. intros i Hi. rewrite zip_app_map.
    apply map_ext_in. intros j Hj. apply in_seq in Hi. apply in_seq in Hj.
    rewrite !column_vstack by exact Hn.
    apply col_mul_app. rewrite !column_length; trivial; lia.
  - unfold log_columns. destruct (py_in (PStr "log") P); [|reflexivity].
    rewrite zip_app_map. apply map_ext. intros c.
    now rewrite column_vstack, map_app.
  - unfold exp_columns. destruct (py_in (PStr "exp") P); [|reflexivity].
    rewrite zip_app_map. apply map_ext. intros cs.
    now rewrite column_vstack, map_app.
Qed.

(** X7.  [apply_powers] works row by row: on an instance fitted for the
    columns of [a], expanding the rows of [a] followed by the rows of
    [b] gives the expansion of [a] followed by the expansion of [b]. *)
Theorem apply_powers_row_by_row (self : FeaturePreparer F) (a b : matrix F) :
  fitted_for self a ->
  ncols b = ncols a ->
  wf_matrix a ->
  produces (powers self) (ncols a) = true ->
  exists oa ob,
    apply_powers self a = Ok (A2 oa) /\
    apply_powers self b = Ok (A2 ob) /\
    apply_powers self (vstack a b) = Ok (A2 (vstack oa ob)).
Proof.
  intros (mk & sd & Hmk & Hsd & Hne & Hlen & Hsdlen) Hn Hwf Hprod.
  eexists. eexists.
  rewrite (apply_powers_fitted self a Hmk Hsd Hne Hlen Hsdlen), Hprod.
  split; [reflexivity|].
  rewrite (apply_powers_fitted self b Hmk Hsd Hne) by congruence.
  rewrite Hn, Hprod. split; [reflexivity|].
  rewrite (apply_powers_fitted self (vstack a b) Hmk Hsd Hne)
    by (rewrite ?ncols_vstack; congruence).
  rewrite ncols_vstack, Hprod by exact Hn.
  rewrite expanded_columns_vstack by assumption. reflexivity.
Qed.

Lemma non_boolean_indices_none (mk : list bool) :
  (forall c, c < length mk -> nth c mk false = false) ->
  non_boolean_indices mk = [].
Proof.
  intros H. destruct (non_boolean_indices mk) as [|i l] eqn:E; [reflexivity|].
  assert (Hi : In i (non_boolean_indices mk)) by (rewrite E; now left).
  apply non_boolean_indices_spec in Hi. destruct Hi as [Hlt Ht].
  rewrite (H i Hlt) in Ht. discriminate.
Qed.

Lemma expanded_columns_no_selection (P : list power) (mk : list bool) (sd : list F)
  (x : matrix F) :
  non_boolean_indices mk = [] ->
  expanded_columns P mk sd x = identity_columns P x ++ perm_columns P x.
Proof.
  intros H. unfold expanded_columns, power_columns, log_columns, exp_columns.
  rewrite H. cbn [map combine].
  replace (flat_map (fun _ : Z => @nil (list F)) (int_powers P)) with (@nil (list F))
    by (induction (int_powers P) as [|p ps IH]; [reflexivity|exact IH]).
  destruct (py_in (PStr "log") P), (py_in (PStr "exp") P);
    cbn [app]; rewrite ?app_nil_r; reflexivity.
Qed.

(** X8.  When no column of the fitting matrix has more than two
    distinct values, a completed [fit] selects no column, and
    [apply_powers] returns the original columns (with the identity
    marker) and the pairwise products (with ["perm"]) only: integer
    powers, ["log"] and ["exp"] add nothing. *)
Theorem boolean_data_adds_no_columns (self st : FeaturePreparer F) (x x' : matrix F) :
  fit x self = (st, Ok tt) ->
  (forall c, c < ncols x -> ~ more_than_two_distinct (column x c)) ->
  ncols x' = ncols x ->
  apply_powers st x' =
  Ok (A2 (mkMatrix (nrows x')
            (identity_columns (powers self) x' ++ perm_columns (powers self) x'))).
Proof.
  intros Hfit Hbool Hn.
  destruct (fit_fitted_for self x x' Hfit Hn) as (Hmk & Hsd & HP & Hne & Hprod & _).
  rewrite (apply_powers_fitted st x' Hmk Hsd Hne).
  - rewrite HP, Hn, Hprod. rewrite expanded_columns_no_selection; [reflexivity|].
    apply non_boolean_indices_none. intros c Hc.
    rewrite compute_mask_length in Hc.
    destruct (nth c (compute_mask x) false) eqn:E; [|reflexivity].
    apply compute_mask_nth in E; [|exact Hc]. now apply Hbool in E.
  - rewrite Hn. apply compute_mask_length.
  - rewrite length_map. apply compress_length, compute_mask_length.
Qed.

Lemma np_unique_len_le (col : list F) : np_unique_len col <= length col.
Proof.
  unfold np_unique_len. apply NoDup_incl_length.
  - apply NoDup_nodup.
  - intros v Hv. now apply nodup_In in Hv.
Qed.

Lemma fit_assigns_mask (self : FeaturePreparer F) (x : matrix F) :
  non_boolean_features_mask (fst (fit x self)) = Some (compute_mask x).
Proof.
  rewrite fit_unfold, fit_run. cbn [fst].
  destruct (getitem_mask (cols x) (compute_mask x)); [|reflexivity].
  cbv zeta. destruct (apply_powers _ x); reflexivity.
Qed.

(** X9.  A fitting matrix with at most two rows cannot show three
    distinct values in a column: [fit] marks every column as boolean,
    whether it completes or raises. *)
Theorem few_rows_select_no_column (self : FeaturePreparer F) (x : matrix F) :
  wf_matrix x ->
  nrows x <= 2 ->
  non_boolean_features_mask (fst (fit x self)) = Some (repeat false (ncols x)).
Proof.
  intros Hwf Hrows. rewrite fit_assigns_mask. f_equal.
  unfold compute_mask, ncols, wf_matrix in *.
  induction Hwf as [|col cs Hcol _ IH]; [reflexivity|].
  cbn [map length repeat]. rewrite IH. f_equal.
  apply Nat.ltb_ge. pose proof (np_unique_len_le col). lia.
Qed.

(** X10.  Whatever calls of [fit] and [fit_transform] an instance has
    gone through, returning or raising: its configuration is the one it
    was built with; its mask is unset only if it is still the fresh
    instance; and its original standard deviations are set only if its
    mask is. *)
Theorem reachable_instance_invariants (P : option (list power))
  (self : FeaturePreparer F) :
  reachable P self ->
  powers self = powers (FeaturePreparer_init P) /\
  (non_boolean_features_mask self = None -> self = FeaturePreparer_init P) /\
  (orig_std self <> None -> non_boolean_features_mask self <> None).
Proof.
  intros Hreach. split; [now apply reachable_powers|].
  destruct Hreach as [|self x _|self x _].
  - split; [reflexivity|]. intros H. now contradiction H.
  - rewrite fit_assigns_mask. split; [discriminate|]. intros _. discriminate.
  - assert (Hmask : non_boolean_features_mask (fst (fit_transform x self)) =
                    Some (compute_mask x)).
    { pose proof (fit_assigns_mask self x) as H. rewrite fit_unfold in H.
      cbn [fst] in H. unfold fit_transform, bind, call.
      destruct (__fit x self) as [st [a|e]]; exact H. }
    rewrite Hmask. split; [discriminate|]. intros _. discriminate.
Qed.

(** X11.  [apply_powers] reads the configuration through five
    observations only: whether 1, ["perm"], ["log"] and ["exp"] occur in
    it, and the list of its integers other than 1.  Two instances with
    the same learned mask and standard deviations whose configurations
    agree on these return the same result or raise the same exception,
    wherever the strings and the 1 stand in the list and however often
    they are repeated. *)
Theorem apply_powers_ignores_token_order (self self' : FeaturePreparer F)
  (x : matrix F) :
  non_boolean_features_mask self' = non_boolean_features_mask self ->
  orig_std self' = orig_std self ->
  int_powers (powers self') = int_powers (powers self) ->
  (forall p, In p [PInt 1; PStr "perm"; PStr "log"; PStr "exp"] ->
             py_in p (powers self') = py_in p (powers self)) ->
  apply_powers self' x = apply_powers self x.
Proof.
  intros Hmask Hstd Hint Hflags.
  unfold apply_powers, apply_powers_list.
  rewrite Hmask, Hstd, Hint.
  rewrite (Hflags (PInt 1)), (Hflags (PStr "perm")), (Hflags (PStr "log")),
    (Hflags (PStr "exp")) by (simpl; tauto).
  reflexivity.
Qed.

End Rows.

(** ** Further properties: names and columns *)

Section Names.

Context {F : Type} {num : Numeric F} {skl : Scaler F}.

Lemma int_powers_named (P : list power) :
  int_powers (named_entries P) = int_powers P.
Proof.
  unfold named_entries, int_powers.
  induction P as [|[z|s] P IH]; [reflexivity| |].
  - cbn [filter power_eqb flat_map]. destruct (Z.eqb_spec z 1) as [->|Hz].
    + exact IH.
    + cbn [negb flat_map]. destruct (Z.eqb_spec z 1); [contradiction|].
      now rewrite IH.
  - cbn [filter power_eqb negb flat_map]. now rewrite IH.
Qed.

Lemma string_entries_named (P : list power) :
  string_entries (named_entries P) = string_entries P.
Proof.
  unfold named_entries, string_entries.
  induction P as [|[z|s] P IH]; [reflexivity| |].
  - cbn [filter power_eqb flat_map]. destruct (negb (z =? 1)%Z); exact IH.
  - cbn [filter power_eqb negb flat_map]. now rewrite IH.
Qed.

Lemma py_in_string (s : string) (P : list power) :
  py_in (PStr s) P = existsb (String.eqb s) (string_entries P).
Proof.
  unfold py_in, string_entries.
  induction P as [|[z|t] P IH]; [reflexivity| |].
  - cbn [existsb power_eqb flat_map app]. exact IH.
  - cbn [existsb power_eqb flat_map app]. now rewrite IH.
Qed.

Lemma length_named_entries (P : list power) :
  length (named_entries P) = length (int_powers P) + length (string_entries P).
Proof.
  rewrite <- int_powers_named, <- string_entries_named.
  unfold int_powers, string_entries.
  assert (Hno1 : Forall (fun p => p <> PInt 1) (named_entries P)).
  { apply Forall_forall. intros p Hp. apply filter_In in Hp.
    destruct Hp as [_ Hp]. intros ->. discriminate. }
  induction Hno1 as [|[z|s] l Hp _ IH]; [reflexivity| |].
  - cbn [flat_map length]. destruct (Z.eqb_spec z 1) as [->|_]; [congruence|].
    rewrite length_app. simpl. lia.
  - cbn [flat_map length]. rewrite length_app. simpl. lia.
Qed.

(** What a configuration of integer powers followed by tokens holds. *)
Lemma named_entries_split (P : list power) (ints : list Z) (toks : list string) :
  named_entries P = map PInt ints ++ map PStr toks ->
  int_powers P = ints /\ string_entries P = toks.
Proof.
  intros H. rewrite <- int_powers_named, <- string_entries_named.
  assert (Hno1 : Forall (fun z => z <> 1%Z) ints).
  { apply Forall_forall. intros z Hz.
    assert (Hin : In (PInt z) (named_entries P))
      by (rewrite H; apply in_or_app; left; now apply in_map).
    apply filter_In in Hin. destruct Hin as [_ Hin]. intros ->. discriminate. }
  rewrite H. clear H. unfold int_powers, string_entries. rewrite !flat_map_app. split.
  - replace (flat_map _ (map PStr toks)) with (@nil Z)
      by (induction toks as [|t ts IH]; [reflexivity|exact IH]).
    rewrite app_nil_r. induction Hno1 as [|z l Hz _ IH]; [reflexivity|].
    cbn [map flat_map]. destruct (Z.eqb_spec z 1); [contradiction|].
    now rewrite IH.
  - replace (flat_map _ (map PInt ints)) with (@nil string)
      by (clear Hno1; induction ints as [|t ts IH]; [reflexivity|exact IH]).
    cbn [app]. induction toks as [|t ts IH]; [reflexivity|].
    cbn [map flat_map app]. now rewrite IH.
Qed.

Lemma map_seq_nth {A B : Type} (f : A -> B) (d : A) (l : list A) :
  map (fun k => f (nth k l d)) (seq 0 (length l)) = map f l.
Proof.
  induction l as [|a l IH]; [reflexivity|].
  cbn [length seq map nth]. f_equal.
  rewrite <- seq_shift, map_map. exact IH.
Qed.

Lemma combine_seq_nth {A B : Type} (d : A) (e : B) (l : list A) (m : list B) :
  length m = length l ->
  combine l m = map (fun k => (nth k l d, nth k m e)) (seq 0 (length l)).
Proof.
  revert m. induction l as [|a l IH]; intros [|b m] H; try discriminate.
  - reflexivity.
  - cbn [length seq map nth combine]. f_equal.
    rewrite <- seq_shift, map_map. apply IH. simpl in H. lia.
Qed.

(** Blocks of equal length: entry [k] of block [e]. *)
Lemma nth_error_blocks {A B : Type} (g : A -> nat -> B) (ps : list A) (K e k : nat)
  (p : A) :
  nth_error ps e = Some p -> k < K ->
  nth_error (flat_map (fun p => map (g p) (seq 0 K)) ps) (e * K + k) = Some (g p k).
Proof.
  revert e. induction ps as [|q ps IH]; intros [|e] He Hk; try discriminate.
  - injection He as ->. cbn [flat_map]. rewrite nth_error_app1
      by (rewrite length_map, length_seq; simpl; lia).
    simpl. rewrite nth_error_map, nth_error_seq.
    destruct (Nat.ltb_spec k K); [reflexivity|lia].
  - cbn [flat_map]. rewrite nth_error_app2
      by (rewrite length_map, length_seq; simpl; lia).
    rewrite length_map, length_seq.
    replace (S e * K + k - K) with (e * K + k) by (simpl; lia).
    now apply IH.
Qed.

Lemma names_blocks (P : list power) (mk : list bool) (columns : list string) :
  length mk = length columns ->
  flat_map (fun pref => map (fun col => (pref ++ "_" ++ col)%string)
                            (compress mk columns))
           (prefixes P) =
  flat_map (fun p => map (derived_name columns mk p)
                         (seq 0 (length (non_boolean_indices mk))))
           (named_entries P).
Proof.
  intros Hlen. unfold prefixes. fold (named_entries P).
  rewrite flat_map_concat_map, map_map, <- flat_map_concat_map.
  apply flat_map_ext. intros p.
  rewrite (compress_indices ""%string mk columns Hlen), map_map.
  unfold derived_name.
  rewrite (map_seq_nth (fun c => (py_str p ++ "_" ++ nth c columns "")%string)).
  reflexivity.
Qed.

Lemma derived_blocks (P : list power) (mk : list bool) (sd : list F) (x : matrix F) :
  py_in (PInt 1) P = true ->
  powers_then_log_exp P ->
  length sd = length (non_boolean_indices mk) ->
  expanded_columns P mk sd x =
  cols x ++
  flat_map (fun p => map (derived_column x mk sd p)
                         (seq 0 (length (non_boolean_indices mk))))
           (named_entries P).
Proof.
  intros Hone (ints & toks & Hnamed & Htoks) Hsd.
  destruct (named_entries_split P ints toks Hnamed) as [Hint Hstr].
  unfold expanded_columns, identity_columns, power_columns, perm_columns,
    log_columns, exp_columns.
  rewrite Hone, !py_in_string, Hstr, Hint, Hnamed. f_equal.
  rewrite flat_map_app.
  assert (Hpow :
    flat_map (fun p => map (fun c => map (fun v => fpow v p) (column x c))
                           (non_boolean_indices mk)) ints =
    flat_map (fun p => map (derived_column x mk sd p)
                           (seq 0 (length (non_boolean_indices mk))))
             (map PInt ints)).
  { rewrite (flat_map_concat_map _ (map PInt ints)), map_map, <- flat_map_concat_map.
    apply flat_map_ext. intros z. unfold derived_column.
    rewrite (map_seq_nth (fun c => map (fun v => fpow v z) (column x c))).
    reflexivity. }
  assert (Hlog :
    map (fun c => map (fun v => flog (fadd v fone)) (column x c))
        (non_boolean_indices mk) =
    map (derived_column x mk sd (PStr "log"))
        (seq 0 (length (non_boolean_indices mk)))).
  { unfold derived_column. cbn [String.eqb Ascii.eqb Bool.eqb].
    rewrite (map_seq_nth (fun c => map (fun v => flog (fadd v fone)) (column x c))).
    reflexivity. }
  assert (Hexp :
    map (fun cs => map (fun v => fexp (fdiv v (snd cs))) (column x (fst cs)))
        (combine (non_boolean_indices mk) sd) =
    map (derived_column x mk sd (PStr "exp"))
        (seq 0 (length (non_boolean_indices mk)))).
  { rewrite (combine_seq_nth 0 fone _ sd Hsd), map_map. reflexivity. }
  rewrite Hpow. f_equal.
  destruct Htoks as [ -> | [ -> | [ -> | -> ] ] ]; cbn [existsb String.eqb Ascii.eqb Bool.eqb orb
                                            map flat_map app];
    rewrite ?Hlog, ?Hexp, ?app_nil_r; reflexivity.
Qed.

(** X12.  After a completed [fit] with a configuration that holds the
    identity marker and, besides it, integer powers followed by at most
    ["log"] and then ["exp"], the names of [expand_columns_names_list]
    describe the columns of [apply_powers] one for one: there are as
    many names as columns; name [i] is the [i]-th input name and column
    [i] the [i]-th input column; and for entry number [e] of the
    configuration (not counting 1) and the [k]-th selected column, the
    name at [n + e * K + k] is the entry's prefix on that column's name
    and the column there is the entry's function of that column. *)
Theorem names_describe_columns (self st : FeaturePreparer F) (x x' : matrix F)
  (columns : list string) :
  fit x self = (st, Ok tt) ->
  ncols x' = ncols x ->
  length columns = ncols x ->
  py_in (PInt 1) (powers self) = true ->
  powers_then_log_exp (powers self) ->
  let mk := compute_mask x in
  let sd := map np_std (compress mk (cols x)) in
  let K := length (non_boolean_indices mk) in
  exists names out,
    expand_columns_names_list st columns = Ok names /\
    apply_powers st x' = Ok (A2 out) /\
    length names = ncols out /\
    (forall i, i < ncols x ->
       nth_error names i = Some (nth i columns ""%string) /\
       nth_error (cols out) i = Some (column x' i)) /\
    (forall e p k,
       nth_error (named_entries (powers self)) e = Some p -> k < K ->
       nth_error names (ncols x + e * K + k) = Some (derived_name columns mk p k) /\
       nth_error (cols out) (ncols x + e * K + k) =
         Some (derived_column x' mk sd p k)).
Proof.
  intros Hfit Hn Hlen Hone Hcanon. cbv zeta.
  destruct (fit_fitted_for self x x' Hfit Hn) as (Hmk & Hsd & HP & Hne & Hprod & _).
  assert (Hmklen : length (compute_mask x) = length columns)
    by (rewrite compute_mask_length; congruence).
  assert (Hsdlen : length (map np_std (compress (compute_mask x) (cols x))) =
                   length (non_boolean_indices (compute_mask x)))
    by (rewrite length_map; apply compress_length, compute_mask_length).
  eexists. eexists.
  split.
  { unfold expand_columns_names_list. rewrite Hmk.
    rewrite (getitem_mask_ok columns Hne Hmklen). cbn [rbind].
    rewrite HP, names_blocks by exact Hmklen. reflexivity. }
  split.
  { rewrite (apply_powers_fitted st x' Hmk Hsd Hne)
      by (rewrite ?Hn; trivial; apply compute_mask_length).
    rewrite HP, Hn, Hprod, derived_blocks by assumption. reflexivity. }
  unfold ncols at 1. cbn [cols].
  split.
  { rewrite !length_app, !length_blocks. unfold ncols in *. lia. }
  split.
  - intros i Hi. split.
    + rewrite nth_error_app1 by lia. apply nth_error_nth'. lia.
    + rewrite nth_error_app1 by (unfold ncols in *; lia).
      unfold column. apply nth_error_nth'. unfold ncols in *. lia.
  - intros e p k He Hk. split.
    + rewrite nth_error_app2 by lia.
      replace (ncols x + e * _ + k - length columns) with
        (e * length (non_boolean_indices (compute_mask x)) + k) by lia.
      now apply nth_error_blocks.
    + rewrite nth_error_app2 by (unfold ncols in *; lia).
      replace (ncols x + e * _ + k - length (cols x')) with
        (e * length (non_boolean_indices (compute_mask x)) + k)
        by (unfold ncols in *; lia).
      now apply nth_error_blocks.
Qed.

(** X13.  After a completed [fit], for any configuration, the number of
    names and the number of columns differ by what the two methods
    treat differently: the names always hold the [n] input names and
    [k] names for every string of the configuration, the columns hold
    the input columns only with the identity marker, [n * (n + 1) / 2]
    columns for ["perm"], and [k] columns for each of ["log"] and
    ["exp"] however often it is written. *)
Theorem names_and_columns_count (self st : FeaturePreparer F) (x x' : matrix F)
  (columns : list string) :
  fit x self = (st, Ok tt) ->
  ncols x' = ncols x ->
  length columns = ncols x ->
  let P := powers self in
  let K := length (non_boolean_indices (compute_mask x)) in
  exists names out,
    expand_columns_names_list st columns = Ok names /\
    apply_powers st x' = Ok (A2 out) /\
    ncols out + (if py_in (PInt 1) P then 0 else ncols x)
      + K * length (string_entries P) =
    length names + (if py_in (PStr "perm") P then ncols x * (ncols x + 1) / 2 else 0)
      + K * ((if py_in (PStr "log") P then 1 else 0)
             + (if py_in (PStr "exp") P then 1 else 0)).
Proof.
  intros Hfit Hn Hlen. cbv zeta.
  destruct (fit_fitted_for self x x' Hfit Hn) as (Hmk & Hsd & HP & Hne & Hprod & _).
  assert (Hmklen : length (compute_mask x) = length columns)
    by (rewrite compute_mask_length; congruence).
  assert (Hsdlen : length (map np_std (compress (compute_mask x) (cols x))) =
                   length (non_boolean_indices (compute_mask x)))
    by (rewrite length_map; apply compress_length, compute_mask_length).
  eexists. eexists.
  split.
  { unfold expand_columns_names_list. rewrite Hmk.
    rewrite (getitem_mask_ok columns Hne Hmklen). cbn [rbind].
    rewrite HP, names_blocks by exact Hmklen. reflexivity. }
  split.
  { rewrite (apply_powers_fitted st x' Hmk Hsd Hne)
      by (rewrite ?Hn; trivial; apply compute_mask_length).
    rewrite HP, Hn, Hprod. reflexivity. }
  unfold ncols at 1. cbn [cols].
  rewrite (@length_expanded_columns _ _ (powers self) _ _ x' Hsdlen).
  rewrite length_app, length_blocks, length_seq, length_named_entries, Hn, Hlen.
  change (triangle (ncols x)) with (ncols x * (ncols x + 1) / 2).
  destruct (py_in (PInt 1) (powers self)), (py_in (PStr "perm") (powers self)),
    (py_in (PStr "log") (powers self)), (py_in (PStr "exp") (powers self)); nia.
Qed.

End Names.

(** ** The real-number model: further scenarios *)

Module RealScenarios.

Import RealModel RealFacts.

Local Open Scope R_scope.

Lemma fit_X1_all : fit X1 self_all = (fst (fit X1 self_all), Ok tt).
Proof. fit_completes. Qed.

Lemma fit_X1_square_log_exp :
  fit X1 self_square_log_exp = (fst (fit X1 self_square_log_exp), Ok tt).
Proof. fit_completes. Qed.

Lemma fit_X1_exp_log_square :
  fit X1 self_exp_log_square = (fst (fit X1 self_exp_log_square), Ok tt).
Proof. fit_completes. Qed.

Lemma fit_X_two_rows :
  fit X_two_rows self_square = (fst (fit X_two_rows self_square), Ok tt).
Proof. fit_completes. Qed.

Lemma wf_X1 : wf_matrix X1.
Proof. repeat constructor. Qed.

Lemma wf_X_two_rows : wf_matrix X_two_rows.
Proof. repeat constructor. Qed.

Lemma two_rows_are_boolean (c : nat) :
  (c < ncols X_two_rows)%nat -> ~ more_than_two_distinct (column X_two_rows c).
Proof.
  intros Hc (u & v & w & Hu & Hv & Hw & Huv & Huw & Hvw).
  destruct c as [|[|c]]; [| |unfold ncols, X_two_rows in Hc; simpl in Hc; lia];
    unfold column, X_two_rows in Hu, Hv, Hw; cbn [cols nth] in Hu, Hv, Hw;
    split_members; subst; lra.
Qed.

Lemma unrecognised_configuration_raises_witness :
  produces (powers self_unknown) (ncols X1) = false /\
  apply_powers self_unknown X1 = Raise IndexError /\
  snd (fit X1 self_unknown) = Raise IndexError.
Proof.
  assert (H : produces (powers self_unknown) (ncols X1) = false) by reflexivity.
  destruct (unrecognised_configuration_raises self_unknown X1 H)
    as (Ha & _ & Hf & _).
  split; [exact H|]. split; [exact Ha|exact Hf].
Defined.

Lemma fit_without_columns_witness :
  ncols X_empty = 0%nat /\
  snd (fit X_empty self_square) = Raise IndexError /\
  transform (fst (fit X_empty self_square)) X1 = Raise IndexError.
Proof.
  assert (H : ncols X_empty = 0%nat) by reflexivity.
  destruct (fit_without_columns self_square X_empty H) as (Hf & _ & Ht & _).
  split; [exact H|]. split; [exact (f_equal snd Hf)|exact (Ht X1)].
Defined.

Lemma names_length_mismatch_witness :
  fit X1 self_square = (fst (fit X1 self_square), Ok tt) /\
  length names_abc <> ncols X1 /\
  expand_columns_names_list (fst (fit X1 self_square)) names_abc = Raise IndexError.
Proof.
  assert (H : length names_abc <> ncols X1) by discriminate.
  split; [exact fit_X1_square|]. split; [exact H|].
  exact (names_length_mismatch self_square X1 names_abc fit_X1_square H).
Defined.

Lemma identity_and_perm_before_fit_witness :
  non_boolean_features_mask self_perm = None /\
  int_powers (powers self_perm) = [] /\
  py_in (PStr "log") (powers self_perm) = false /\
  py_in (PStr "exp") (powers self_perm) = false /\
  produces (powers self_perm) (ncols X1) = true /\
  apply_powers self_perm X1 = Ok (A2 (mkMatrix 4 (cols X1 ++ pair_columns X1))).
Proof.
  repeat (split; [reflexivity|]).
  exact (identity_and_perm_before_fit self_perm X1 eq_refl eq_refl eq_refl eq_refl
           eq_refl).
Defined.

Lemma expanded_column_count_witness :
  fitted_for (fst (fit X1 self_all)) X1 /\
  produces (powers (fst (fit X1 self_all))) (ncols X1) = true /\
  exists out,
    apply_powers (fst (fit X1 self_all)) X1 = Ok (A2 out) /\ ncols out = 7%nat.
Proof.
  destruct (fitted_state self_all X1 fit_X1_all) as (Hmk & _ & HP & Hfor).
  assert (Hprod : produces (powers (fst (fit X1 self_all))) (ncols X1) = true)
    by (rewrite HP; reflexivity).
  split; [exact (Hfor X1 eq_refl)|]. split; [exact Hprod|].
  destruct (expanded_column_count (Hfor X1 eq_refl) Hprod)
    as (mk & out & Hmk' & Happ & _ & Hcols).
  exists out. split; [exact Happ|].
  rewrite Hmk, mask_X1 in Hmk'. injection Hmk' as <-.
  rewrite Hcols, HP. reflexivity.
Defined.

Lemma apply_powers_keeps_rectangular_witness :
  fitted_for (fst (fit X1 self_square)) X1 /\
  wf_matrix X1 /\
  exists out,
    apply_powers (fst (fit X1 self_square)) X1 = Ok (A2 out) /\
    wf_matrix out /\ nrows out = 4%nat.
Proof.
  destruct (fitted_state self_square X1 fit_X1_square) as (_ & _ & _ & Hfor).
  split; [exact (Hfor X1 eq_refl)|]. split; [exact wf_X1|].
  eexists. split; [exact (R_apply_powers_layout self_square X1 X1 fit_X1_square eq_refl)|].
  exact (apply_powers_keeps_rectangular (Hfor X1 eq_refl) wf_X1
           (R_apply_powers_layout self_square X1 X1 fit_X1_square eq_refl)).
Defined.

Lemma apply_powers_row_by_row_witness :
  fitted_for (fst (fit X1 self_square)) X1 /\
  ncols X_more = ncols X1 /\
  wf_matrix X1 /\
  produces (powers (fst (fit X1 self_square))) (ncols X1) = true /\
  exists oa ob,
    apply_powers (fst (fit X1 self_square)) X1 = Ok (A2 oa) /\
    apply_powers (fst (fit X1 self_square)) X_more = Ok (A2 ob) /\
    apply_powers (fst (fit X1 self_square)) (vstack X1 X_more) = Ok (A2 (vstack oa ob)).
Proof.
  destruct (fitted_state self_square X1 fit_X1_square) as (_ & _ & HP & Hfor).
  assert (Hprod : produces (powers (fst (fit X1 self_square))) (ncols X1) = true)
    by (rewrite HP; reflexivity).
  split; [exact (Hfor X1 eq_refl)|]. split; [reflexivity|].
  split; [exact wf_X1|]. split; [exact Hprod|].
  exact (@apply_powers_row_by_row _ _ _ _ X1 X_more (Hfor X1 eq_refl) eq_refl
           wf_X1 Hprod).
Defined.

Lemma boolean_data_adds_no_columns_witness :
  fit X_two_rows self_square = (fst (fit X_two_rows self_square), Ok tt) /\
  (forall c, (c < ncols X_two_rows)%nat ->
             ~ more_than_two_distinct (column X_two_rows c)) /\
  ncols X_more = ncols X_two_rows /\
  apply_powers (fst (fit X_two_rows self_square)) X_more = Ok (A2 X_more).
Proof.
  split; [exact fit_X_two_rows|]. split; [exact two_rows_are_boolean|].
  split; [reflexivity|].
  exact (boolean_data_adds_no_columns self_square X_two_rows X_more
           fit_X_two_rows two_rows_are_boolean eq_refl).
Defined.

Lemma few_rows_select_no_column_witness :
  wf_matrix X_two_rows /\ (nrows X_two_rows <= 2)%nat /\
  non_boolean_features_mask (fst (fit X_two_rows self_square)) = Some [false; false].
Proof.
  assert (H : (nrows X_two_rows <= 2)%nat) by (simpl; lia).
  split; [exact wf_X_two_rows|]. split; [exact H|].
  exact (few_rows_select_no_column self_square wf_X_two_rows H).
Defined.

Lemma reachable_instance_invariants_witness :
  reachable (Some [PInt 1; PInt 2]) (fst (fit X_const self_square)) /\
  powers (fst (fit X_const self_square)) = [PInt 1; PInt 2].
Proof.
  assert (H : reachable (Some [PInt 1; PInt 2]) (fst (fit X_const self_square)))
    by exact (reach_fit X_const (reach_init (Some [PInt 1; PInt 2]))).
  split; [exact H|]. exact (proj1 (reachable_instance_invariants H)).
Defined.

Lemma apply_powers_ignores_token_order_witness :
  non_boolean_features_mask (fst (fit X1 self_exp_log_square)) =
    non_boolean_features_mask (fst (fit X1 self_square_log_exp)) /\
  orig_std (fst (fit X1 self_exp_log_square)) =
    orig_std (fst (fit X1 self_square_log_exp)) /\
  int_powers (powers (fst (fit X1 self_exp_log_square))) =
    int_powers (powers (fst (fit X1 self_square_log_exp))) /\
  (forall p, In p [PInt 1; PStr "perm"; PStr "log"; PStr "exp"] ->
     py_in p (powers (fst (fit X1 self_exp_log_square))) =
     py_in p (powers (fst (fit X1 self_square_log_exp)))) /\
  apply_powers (fst (fit X1 self_exp_log_square)) X_more =
    apply_powers (fst (fit X1 self_square_log_exp)) X_more.
Proof.
  destruct (fitted_state self_exp_log_square X1 fit_X1_exp_log_square)
    as (Hmk & Hsd & HP & _).
  destruct (fitted_state self_square_log_exp X1 fit_X1_square_log_exp)
    as (Hmk' & Hsd' & HP' & _).
  assert (H1 : non_boolean_features_mask (fst (fit X1 self_exp_log_square)) =
               non_boolean_features_mask (fst (fit X1 self_square_log_exp)))
    by (rewrite Hmk, Hmk'; reflexivity).
  assert (H2 : orig_std (fst (fit X1 self_exp_log_square)) =
               orig_std (fst (fit X1 self_square_log_exp)))
    by (rewrite Hsd, Hsd'; reflexivity).
  assert (H3 : int_powers (powers (fst (fit X1 self_exp_log_square))) =
               int_powers (powers (fst (fit X1 self_square_log_exp))))
    by (rewrite HP, HP'; reflexivity).
  assert (H4 : forall p, In p [PInt 1; PStr "perm"; PStr "log"; PStr "exp"] ->
                 py_in p (powers (fst (fit X1 self_exp_log_square))) =
                 py_in p (powers (fst (fit X1 self_square_log_exp)))).
  { intros p Hp. rewrite HP, HP'. split_members; subst; reflexivity. }
  split; [exact H1|]. split; [exact H2|]. split; [exact H3|]. split; [exact H4|].
  exact (apply_powers_ignores_token_order _ _ X_more H1 H2 H3 H4).
Defined.

Lemma canonical_square_log_exp : powers_then_log_exp (powers self_square_log_exp).
Proof.
  exists [2%Z], ["log"%string; "exp"%string]. split; [reflexivity|tauto].
Qed.

Lemma names_describe_columns_witness :
  fit X1 self_square_log_exp = (fst (fit X1 self_square_log_exp), Ok tt) /\
  ncols X_more = ncols X1 /\
  length names_ab = ncols X1 /\
  py_in (PInt 1) (powers self_square_log_exp) = true /\
  powers_then_log_exp (powers self_square_log_exp) /\
  exists names out,
    expand_columns_names_list (fst (fit X1 self_square_log_exp)) names_ab = Ok names /\
    apply_powers (fst (fit X1 self_square_log_exp)) X_more = Ok (A2 out) /\
    length names = ncols out.
Proof.
  split; [exact fit_X1_square_log_exp|]. split; [reflexivity|].
  split; [reflexivity|]. split; [reflexivity|].
  split; [exact canonical_square_log_exp|].
  destruct (names_describe_columns self_square_log_exp X1 X_more names_ab
              fit_X1_square_log_exp eq_refl eq_refl eq_refl canonical_square_log_exp)
    as (names & out & Hnames & Hout & Hlen & _).
  exists names, out. split; [exact Hnames|]. split; [exact Hout|exact Hlen].
Defined.

Lemma names_and_columns_count_witness :
  fit X1 self_all = (fst (fit X1 self_all), Ok tt) /\
  ncols X_more = ncols X1 /\
  length names_ab = ncols X1 /\
  exists names out,
    expand_columns_names_list (fst (fit X1 self_all)) names_ab = Ok names /\
    apply_powers (fst (fit X1 self_all)) X_more = Ok (A2 out) /\
    (ncols out + 2 = length names + 3 + 1)%nat.
Proof.
  split; [exact fit_X1_all|]. split; [reflexivity|]. split; [reflexivity|].
  destruct (names_and_columns_count self_all X1 X_more names_ab
              fit_X1_all eq_refl eq_refl)
    as (names & out & Hnames & Hout & Hcount).
  exists names, out. split; [exact Hnames|]. split; [exact Hout|].
  rewrite mask_X1 in Hcount. cbn in Hcount. lia.
Defined.

End RealScenarios.
